(** * multiple_put_with_lock_flush_one_window_mbw_mr

    A shallow embedding of the MPI+threads [MPI_Put] message-rate and
    bandwidth benchmark (rma/multiple_put_with_lock_flush_one_window_mbw_mr.c)
    and the properties of its configuration normalisation, its per-thread
    put engine, its phase order, its bootstrap checks and its metrics
    aggregation.

    C [int] values are integers of [Z] with the 32-bit two's complement
    wrap-around written out, [double] values are the binary64 numbers of
    [PrimFloat], the calls into MPI, OpenMP and libc are events of a trace. *)

From Stdlib Require Import ZArith List Bool String Ascii Lia Floats.
From Stdlib Require Import Reals Lra Psatz.
Import ListNotations.

Local Open Scope Z_scope.

(** ** C arithmetic on [int] and [size_t] *)

Module CInt.

Definition INT_MIN : Z := -2147483648.
Definition INT_MAX : Z := 2147483647.

Definition in_range (z : Z) : Prop := INT_MIN <= z <= INT_MAX.

(** Reduction of a mathematical result to a 32-bit two's complement [int]. *)
Definition wrap (z : Z) : Z := (z + 2147483648) mod 4294967296 - 2147483648.

Definition add (a b : Z) : Z := wrap (a + b).
Definition mul (a b : Z) : Z := wrap (a * b).

(** [a / b] on [int]: truncation towards zero; a zero divisor and
    [INT_MIN / -1] trap. *)
Definition div (a b : Z) : option Z :=
  if b =? 0 then None
  else if (a =? INT_MIN) && (b =? -1) then None
  else Some (Z.quot a b).

(** [a % b] on [int], with the sign of the dividend. *)
Definition rem (a b : Z) : option Z :=
  if b =? 0 then None
  else if (a =? INT_MIN) && (b =? -1) then None
  else Some (Z.rem a b).

(** Product in the 64-bit [size_t], its operands converted from [int]. *)
Definition to_size_t (z : Z) : Z := z mod 18446744073709551616.
Definition size_mul (a b : Z) : Z := (to_size_t a * to_size_t b) mod 18446744073709551616.

(** [(double) i] for an [int] i: every [int] is a binary64 number. *)
Definition to_double (z : Z) : float :=
  if z <? 0 then PrimFloat.opp (PrimFloat.of_uint63 (Uint63.of_Z (- z)))
  else PrimFloat.of_uint63 (Uint63.of_Z z).

End CInt.

(** ** The option monad of trapping computations *)

Definition bind {A B} (m : option A) (k : A -> option B) : option B :=
  match m with
  | Some a => k a
  | None => None
  end.

Notation "x <- m ;; k" := (bind m (fun x => k))
  (at level 61, m at next level, right associativity).

(** ** Constants of the benchmark *)

Definition CACHE_LINE_SIZE : Z := 64.
Definition PAGE_SIZE : Z := 4096.
Definition DEF_NUM_THREADS : Z := 1.
Definition DEF_MESSAGE_SIZE : Z := 8.
Definition WINDOW_SIZE : Z := 64.
Definition DEF_NUM_MESSAGES : Z := 640000.
Definition LARGE_MSG_TH : Z := 16384.
Definition DEF_LARGE_NUM_MESSAGES : Z := 64000.
Definition EXIT_FAILURE : Z := 1.

(** ** The global run parameters *)

Record globals := mkGlobals {
  num_threads : Z;
  num_messages : Z;
  message_size : Z
}.

(** ** Events: the calls a process makes into MPI, OpenMP and libc *)

Inductive thread_level :=
| MPI_THREAD_SINGLE
| MPI_THREAD_FUNNELED
| MPI_THREAD_SERIALIZED
| MPI_THREAD_MULTIPLE.

Definition thread_level_eqb (a b : thread_level) : bool :=
  match a, b with
  | MPI_THREAD_SINGLE, MPI_THREAD_SINGLE
  | MPI_THREAD_FUNNELED, MPI_THREAD_FUNNELED
  | MPI_THREAD_SERIALIZED, MPI_THREAD_SERIALIZED
  | MPI_THREAD_MULTIPLE, MPI_THREAD_MULTIPLE => true
  | _, _ => false
  end.

Inductive event :=
| Calloc (count : Z)
| PosixMemalign (alignment bytes : Z)
| Free
| WinCreate (with_buffer : bool) (bytes : Z)
| WinLockAll
| WinUnlockAll
| WinFree
| Put (count target_rank target_disp : Z)
| WinFlush (target_rank : Z)
| MPIBarrier
| OmpBarrier
| Wtime
| InitThread (required : thread_level)
| CommSize
| CommRank
| SetNumThreads (n : Z)
| Abort (errorcode : Z)
| Finalize
| PrintStr (s : string)
| PrintRow (thread_i : Z) (rate bw : float)
| PrintInt (z : Z)
| PrintFloat (f : float).

Definition trace := list event.

Definition is_put (e : event) : bool :=
  match e with Put _ _ _ => true | _ => false end.

Definition is_mpi_barrier (e : event) : bool :=
  match e with MPIBarrier => true | _ => false end.

Definition is_win_free (e : event) : bool :=
  match e with WinFree => true | _ => false end.

(** Events that create a window, allocate a buffer or print a result. *)
Definition allocates_or_reports (e : event) : bool :=
  match e with
  | Calloc _ | PosixMemalign _ _ | WinCreate _ _
  | PrintRow _ _ _ | PrintInt _ | PrintFloat _ => true
  | _ => false
  end.

(** ** Normalisation of the message count (first statement of [run_bench])

    [num_messages = WINDOW_SIZE * (num_messages / num_threads / WINDOW_SIZE)].
    The batch size is the macro; [normalize_with] is the statement for an
    arbitrary value of the macro, [normalize] the one the program has. *)

Definition normalize_with (window : Z) (nthreads nmessages : Z) : option Z :=
  per_thread <- CInt.div nmessages nthreads ;;
  batches <- CInt.div per_thread window ;;
  Some (CInt.mul window batches).

Definition normalize : Z -> Z -> option Z := normalize_with WINDOW_SIZE.

(** ** Per-thread batch count and accuracy warning (in the parallel region)

    [win_posts = num_messages / WINDOW_SIZE], read after the normalisation;
    the warning is printed when [win_posts * WINDOW_SIZE != num_messages]. *)

Definition win_posts_of (nmessages : Z) : option Z := CInt.div nmessages WINDOW_SIZE.

Definition warning_of (nmessages : Z) : option bool :=
  win_posts <- win_posts_of nmessages ;;
  Some (negb (CInt.mul win_posts WINDOW_SIZE =? nmessages)).

(** Batch count and warning flag of a run, from the requested parameters. *)
Definition batch_count (nthreads nmessages : Z) : option Z :=
  n <- normalize nthreads nmessages ;;
  win_posts_of n.

Definition warns (nthreads nmessages : Z) : option bool :=
  n <- normalize nthreads nmessages ;;
  warning_of n.

Definition warning_text : string :=
  "Warning: The final reported numbers will be off. Please choose number of messages to be a multiple of window size".

(** ** The parallel region *)

(** A [for] loop of [n] iterations whose body does not read its index. *)
Fixpoint for_loop (n : nat) (body : trace) : trace :=
  match n with
  | O => []
  | S k => body ++ for_loop k body
  end.

(** [rank % 2 == 0]: the putter; the divisor is not zero, nothing traps. *)
Definition is_putter (rank : Z) : bool := Z.rem rank 2 =? 0.

(** [target_disp = tid * message_size], an [int] product widened to [MPI_Aint]. *)
Definition target_disp (tid msg_size : Z) : Z := CInt.mul tid msg_size.

(** One batch: [WINDOW_SIZE] puts into the thread's slot, then a flush. *)
Definition put_batch (rank msg_size disp : Z) : trace :=
  for_loop (Z.to_nat WINDOW_SIZE) [Put msg_size (CInt.add rank 1) disp]
  ++ [WinFlush (CInt.add rank 1)].

Definition put_loop (win_posts rank msg_size disp : Z) : trace :=
  for_loop (Z.to_nat win_posts) (put_batch rank msg_size disp).

(** [#pragma omp master]: the block runs on thread 0 only. *)
Definition omp_master (tid : Z) (block : trace) : trace :=
  if tid =? 0 then block else [].

(** The body of the parallel region on thread [tid]; [g] holds the globals
    after the normalisation. *)
Definition thread_body (rank : Z) (g : globals) (tid : Z) : option trace :=
  let my_message_size := message_size g in
  let disp := target_disp tid (message_size g) in
  win_posts <- CInt.div (num_messages g) WINDOW_SIZE ;;
  let warning :=
    if negb (CInt.mul win_posts WINDOW_SIZE =? num_messages g)
    then [PrintStr warning_text] else [] in
  Some (warning ++
    if is_putter rank then
      [PosixMemalign PAGE_SIZE (CInt.size_mul my_message_size 1)]
      ++ put_loop win_posts rank my_message_size disp
      ++ omp_master tid [MPIBarrier] ++ [OmpBarrier]
      ++ [Wtime]
      ++ put_loop win_posts rank my_message_size disp
      ++ [Wtime]
      ++ [Free]
    else
      omp_master tid [MPIBarrier] ++ [OmpBarrier]
      ++ omp_master tid [WinFree] ++ [OmpBarrier]).

(** The events of thread [tid]; the division by the batch size cannot trap. *)
Definition thread_events (rank : Z) (g : globals) (tid : Z) : trace :=
  match thread_body rank g tid with
  | Some t => t
  | None => []
  end.

(** The thread ids of the team: [0 .. num_threads - 1]. The parallel
    region is always run by the thread that meets it, thread 0: a thread
    count below one, which [omp_set_num_threads] was handed as it is,
    leaves a team of that one thread. *)
Definition thread_ids (nthreads : Z) : list Z :=
  map Z.of_nat (seq 0 (Z.to_nat (Z.max 1 nthreads))).

Fixpoint all_threads (rank : Z) (g : globals) (tids : list Z) : option (list trace) :=
  match tids with
  | [] => Some []
  | tid :: rest =>
      t <- thread_body rank g tid ;;
      ts <- all_threads rank g rest ;;
      Some (t :: ts)
  end.

(** ** The elapsed-time array

    [t_elapsed = calloc (num_threads, sizeof (double))], its result not
    tested. The count is an [int] converted to [size_t]: a negative one
    becomes a count above 2^63 whose product with the element size
    overflows, and [calloc] returns NULL ([None]); any other request is
    taken to be served, with a zeroed array. Putter thread [tid] stores
    [t_end - t_start] at index [tid]; through NULL that store traps. The
    clock gives the two readings of [MPI_Wtime] of each thread. *)

Definition clock := Z -> float * float.

Fixpoint store (l : list float) (i : nat) (v : float) : list float :=
  match l, i with
  | [], _ => []
  | _ :: tl, O => v :: tl
  | x :: tl, S k => x :: store tl k v
  end.

Definition record_elapsed (c : clock) (t_elapsed : list float) (tid : Z) : list float :=
  let '(t_start, t_end) := c tid in
  store t_elapsed (Z.to_nat tid) (PrimFloat.sub t_end t_start).

Definition calloc (count : Z) : option (list float) :=
  if count <? 0 then None else Some (repeat 0%float (Z.to_nat count)).

(** The array once the threads of the putter have stored their samples. *)
Definition measure (c : clock) (nthreads : Z) : option (list float) :=
  zeroed <- calloc nthreads ;;
  Some (fold_left (record_elapsed c) (thread_ids nthreads) zeroed).

(** ** The metrics aggregation (the reporting block of [run_bench]) *)

Definition my_msg_rate (nmessages : Z) (elapsed : float) : float :=
  PrimFloat.div (PrimFloat.div (CInt.to_double nmessages) elapsed) 1e6%float.

Definition my_bandwidth (msg_size nmessages : Z) (elapsed : float) : float :=
  PrimFloat.div
    (PrimFloat.div
       (PrimFloat.mul (CInt.to_double msg_size) (CInt.to_double nmessages))
       (CInt.to_double (1024 * 1024)))
    elapsed.

(** The memory the block works on: the array it reads, the two sums. *)
Record memory := mkMemory {
  t_elapsed : list float;
  msg_rate : float;
  bandwidth : float
}.

(** One iteration of the loop over [thread_i]. *)
Definition aggregate_step (g : globals) (thread_i : Z) (st : memory * trace) : memory * trace :=
  let '(m, out) := st in
  let sample := nth (Z.to_nat thread_i) (t_elapsed m) 0%float in
  let rate := my_msg_rate (num_messages g) sample in
  let bw := my_bandwidth (message_size g) (num_messages g) sample in
  (mkMemory (t_elapsed m) (PrimFloat.add (msg_rate m) rate) (PrimFloat.add (bandwidth m) bw),
   out ++ [PrintRow thread_i rate bw]).

(** [for (thread_i = 0; thread_i < num_threads; thread_i++)], with the
    iterations still to run as fuel. *)
Fixpoint aggregate_loop (g : globals) (todo : nat) (thread_i : Z) (st : memory * trace)
  : memory * trace :=
  match todo with
  | O => st
  | S k => aggregate_loop g k (thread_i + 1) (aggregate_step g thread_i st)
  end.

Definition aggregate (g : globals) (m : memory) : memory * trace :=
  let m0 := mkMemory (t_elapsed m) 0%float 0%float in
  let '(m1, out) :=
    aggregate_loop g (Z.to_nat (num_threads g)) 0
      (m0, [PrintStr "Thread Mmsgs/s MB/s"]) in
  (m1, out ++ [PrintStr "Size Threads Mmsgs/s MB/s";
               PrintInt (message_size g); PrintInt (num_threads g);
               PrintFloat (msg_rate m1); PrintFloat (bandwidth m1)]).

(** The rows of the per-thread table among the printed events. *)
Fixpoint rows_of (out : trace) : list (Z * float * float) :=
  match out with
  | [] => []
  | PrintRow thread_i rate bw :: rest => (thread_i, rate, bw) :: rows_of rest
  | _ :: rest => rows_of rest
  end.

(** ** [run_bench]

    A run is the calls of the process in program order, the globals after
    the normalisation, the memory of the reporting block and the value
    returned. The reporting block runs on the putter only: on the target
    the two sums are locals that never receive a value and the array is
    not touched, and the run has no memory of the block ([None]).

    [run_bench] gives no run ([None]) where the code traps: in the
    divisions of the normalisation and, on the putter, in the store of a
    sample through NULL. The results of [posix_memalign] are not tested
    either: a request that is refused (a negative message size converted
    to [size_t]) leaves the buffer pointer as it was, and the calls that
    follow hand it to MPI and to [free]. These calls are listed as the
    code makes them; what the libraries do with them is not modelled. *)

Record bench_run := mkRun {
  run_globals : globals;
  run_prologue : trace;
  run_threads : list trace;
  run_epilogue : trace;
  run_memory : option memory;
  run_ret : Z
}.

Definition run_bench (rank size : Z) (c : clock) (g0 : globals) : option bench_run :=
  n <- normalize (num_threads g0) (num_messages g0) ;;
  let g := mkGlobals (num_threads g0) n (message_size g0) in
  let contig_buffer_size :=
    CInt.size_mul (CInt.size_mul (message_size g) 1) (num_threads g) in
  let prologue :=
    [Calloc (num_threads g)]
    ++ (if is_putter rank then [] else [PosixMemalign PAGE_SIZE contig_buffer_size])
    ++ (if is_putter rank then [WinCreate false 0]
        else [WinCreate true contig_buffer_size])
    ++ (if is_putter rank then [WinLockAll] else []) in
  threads <- all_threads rank g (thread_ids (num_threads g)) ;;
  reported <-
    (if is_putter rank then
       samples <- measure c (num_threads g) ;;
       (* the sums have no value yet: [aggregate] assigns them first *)
       let '(m, report) := aggregate g (mkMemory samples 0%float 0%float) in
       Some (Some m, report)
     else Some (None, [])) ;;
  let '(m', report) := reported in
  let epilogue :=
    (if is_putter rank then [WinUnlockAll; WinFree] else [])
    ++ [MPIBarrier] ++ report ++ [MPIBarrier; Free] in
  Some (mkRun g prologue threads epilogue m' 0).

(** What thread 0 of the process does, in program order, and everything
    the process does. *)
Definition master_trace (r : bench_run) : trace :=
  run_prologue r ++ nth 0%nat (run_threads r) [] ++ run_epilogue r.

Definition run_events (r : bench_run) : trace :=
  run_prologue r ++ List.concat (run_threads r) ++ run_epilogue r.

(** ** [main]

    The results of the successive [getopt_long] calls are a list of option
    characters, each with [atoi (optarg)]. [MPI_Abort] ends the process. *)

Inductive outcome :=
| Returned (ret : Z)
| Aborted (errorcode : Z)
| Trapped.

Record execution := mkExec {
  exec_trace : trace;
  exec_bench : option bench_run;
  exec_outcome : outcome
}.

Definition print_usage : trace :=
  [PrintStr "Usage:";
   PrintStr "  mpiexec -n 2 -ppn 1 -bind-to core:<#threads> -hosts <sender>,<receiver> %s <options>";
   PrintStr "";
   PrintStr "Options:";
   PrintStr "  -T, --threads=<#threads> number of threads";
   PrintStr "  -M, --num-messages=<num_messages> number of messages";
   PrintStr "  -S, --message-size=<message_size> size of messages"].

Fixpoint getopt_loop (ops : list (ascii * Z)) (g : globals) : globals + trace * Z :=
  match ops with
  | [] => inl g
  | (op, arg) :: rest =>
      if (op =? "?")%char || (op =? "h")%char then inr (print_usage, -1)
      else if (op =? "T")%char then
        getopt_loop rest (mkGlobals arg (num_messages g) (message_size g))
      else if (op =? "M")%char then
        getopt_loop rest (mkGlobals (num_threads g) arg (message_size g))
      else if (op =? "S")%char then
        getopt_loop rest (mkGlobals (num_threads g) (num_messages g) arg)
      else inr ([PrintStr "Unrecognized argument"], EXIT_FAILURE)
  end.

Definition large_message_default (g : globals) : globals :=
  if (message_size g >? LARGE_MSG_TH) && (num_messages g =? DEF_NUM_MESSAGES)
  then mkGlobals (num_threads g) DEF_LARGE_NUM_MESSAGES (message_size g)
  else g.

(** The globals as [main] sets them before it reads the options. *)
Definition defaults : globals :=
  mkGlobals DEF_NUM_THREADS DEF_NUM_MESSAGES DEF_MESSAGE_SIZE.

Definition main (ops : list (ascii * Z)) (extra_args : bool)
    (provided : thread_level) (size rank : Z) (c : clock) : execution :=
  match getopt_loop ops defaults with
  | inr (out, ret) => mkExec out None (Returned ret)
  | inl parsed =>
      if extra_args then mkExec print_usage None (Returned (-1))
      else
        let g := large_message_default parsed in
        let init := [InitThread MPI_THREAD_MULTIPLE] in
        if negb (thread_level_eqb provided MPI_THREAD_MULTIPLE) then
          mkExec (init ++ [PrintStr "Thread multiple needed"; Abort 1]) None (Aborted 1)
        else if negb (size =? 2) then
          mkExec (init ++ [CommSize;
                           PrintStr "Run with only two processes for MPI+threads.";
                           Abort 1]) None (Aborted 1)
        else
          let setup := init ++ [CommSize; SetNumThreads (num_threads g); CommRank] in
          match run_bench rank size c g with
          | None => mkExec setup None Trapped
          | Some r =>
              let ret := if run_ret r =? 0 then 0 else EXIT_FAILURE in
              mkExec (setup ++ run_events r ++ [Finalize]) (Some r) (Returned ret)
          end
  end.

Definition is_warning (e : event) : bool :=
  match e with
  | PrintStr s => String.eqb s warning_text
  | _ => false
  end.

(** A clock that stands still, for runs whose timing does not matter. *)
Definition still_clock : clock := fun _ => (0%float, 0%float).

Definition is_flush (e : event) : bool :=
  match e with WinFlush _ => true | _ => false end.

(** The data path of a trace: its puts and flushes. *)
Definition data_path (tr : trace) : trace :=
  filter (fun e => is_put e || is_flush e) tr.

(** The options that set a run parameter. *)
Definition sets_parameter (op : ascii) : bool :=
  ((op =? "T") || (op =? "M") || (op =? "S"))%char.

(** ** Phases of a run, read off the trace of thread 0

    A window creation is [WindowReady], the lock [EpochOpen]; puts and
    flushes are [Warmup] before the first clock reading and [Measuring]
    from it on; the k-th [MPI_Barrier] is [Barrier k]; the unlock is
    [EpochClosed], the window release [WindowFreed], a printed result
    [Reported]. Allocation, release of buffers, thread barriers and the
    fixed texts belong to no phase. *)

Inductive phase :=
| Idle
| WindowReady
| EpochOpen
| Warmup
| Barrier (k : nat)
| Measuring
| EpochClosed
| WindowFreed
| Reported.

Definition phase_eqb (p q : phase) : bool :=
  match p, q with
  | Idle, Idle | WindowReady, WindowReady | EpochOpen, EpochOpen
  | Warmup, Warmup | Measuring, Measuring | EpochClosed, EpochClosed
  | WindowFreed, WindowFreed | Reported, Reported => true
  | Barrier j, Barrier k => Nat.eqb j k
  | _, _ => false
  end.

Record observer := mkObs { clock_readings : nat; barriers_passed : nat }.

Definition phase_of (o : observer) (e : event) : option phase * observer :=
  match e with
  | WinCreate _ _ => (Some WindowReady, o)
  | WinLockAll => (Some EpochOpen, o)
  | Put _ _ _ | WinFlush _ =>
      (Some (if Nat.eqb (clock_readings o) 0 then Warmup else Measuring), o)
  | Wtime => (Some Measuring, mkObs (S (clock_readings o)) (barriers_passed o))
  | MPIBarrier =>
      (Some (Barrier (S (barriers_passed o))),
       mkObs (clock_readings o) (S (barriers_passed o)))
  | WinUnlockAll => (Some EpochClosed, o)
  | WinFree => (Some WindowFreed, o)
  | PrintRow _ _ _ | PrintInt _ | PrintFloat _ => (Some Reported, o)
  | _ => (None, o)
  end.

(** The phases entered along a trace; a phase is listed once per stay. *)
Fixpoint observe (o : observer) (current : phase) (tr : trace) : list phase :=
  match tr with
  | [] => []
  | e :: rest =>
      match phase_of o e with
      | (Some p, o') =>
          if phase_eqb p current then observe o' current rest
          else p :: observe o' p rest
      | (None, o') => observe o' current rest
      end
  end.

Definition phases (tr : trace) : list phase := Idle :: observe (mkObs 0 0) Idle tr.

Fixpoint phases_eqb (l1 l2 : list phase) : bool :=
  match l1, l2 with
  | [], [] => true
  | p :: r1, q :: r2 => phase_eqb p q && phases_eqb r1 r2
  | _, _ => false
  end.

(** The sender-side state machine as the specification words it. *)
Definition spec_sender_phases : list phase :=
  [Idle; WindowReady; EpochOpen; Warmup; Barrier 1; Measuring; Barrier 2;
   EpochClosed; WindowFreed; Barrier 3; Reported].

(** Number of [MPI_Barrier] calls before the first event satisfying [p],
    and before the last one. *)
Fixpoint barriers_before_first (p : event -> bool) (tr : trace) : option nat :=
  match tr with
  | [] => None
  | e :: rest =>
      if p e then Some 0%nat
      else match barriers_before_first p rest with
           | Some n => Some (if is_mpi_barrier e then S n else n)
           | None => None
           end
  end.

Definition barriers_before_last (p : event -> bool) (tr : trace) : option nat :=
  match barriers_before_first p (rev tr) with
  | Some after => Some (List.length (filter is_mpi_barrier tr) - after)%nat
  | None => None
  end.

(** The k-th barrier of one peer is the k-th barrier of the other. The
    target releases its window after a barrier that follows every put of
    the sender when more barriers precede its release than precede the
    sender's last put. *)
Definition freed_after_all_puts (sender target : trace) : bool :=
  match barriers_before_last is_put sender, barriers_before_first is_win_free target with
  | Some writes, Some release => (writes <? release)%nat
  | None, Some _ => true
  | _, None => false
  end.

(** ** Slots of the target window *)

(** The bytes [[lo, hi)] a put writes. *)
Definition put_range (e : event) : option (Z * Z) :=
  match e with
  | Put count _ disp => Some (disp, disp + count)
  | _ => None
  end.

Definition disjoint (a b : Z * Z) : Prop := snd a <= fst b \/ snd b <= fst a.

(** The slot of worker [i] as the specification words it. *)
Definition spec_slot (msg_size i : Z) : Z * Z := (i * msg_size, (i + 1) * msg_size).

(** ** The aggregation as the specification words it *)

Definition spec_rate (total_messages_per_thread : Z) (sample : float) : float :=
  PrimFloat.div (PrimFloat.div (CInt.to_double total_messages_per_thread) sample) 1e6%float.

Definition spec_bandwidth (msg_size total_messages_per_thread : Z) (sample : float) : float :=
  PrimFloat.div
    (PrimFloat.div
       (PrimFloat.mul (CInt.to_double msg_size) (CInt.to_double total_messages_per_thread))
       (PrimFloat.mul 1024%float 1024%float))
    sample.

Definition spec_sum (l : list float) : float := fold_left PrimFloat.add l 0%float.

(** ** Views of a trace *)

(** The collective calls of MPI, without their arguments. *)
Inductive collective :=
| CWinCreate
| CWinFree
| CBarrier.

Definition collective_of (e : event) : list collective :=
  match e with
  | WinCreate _ _ => [CWinCreate]
  | WinFree => [CWinFree]
  | MPIBarrier => [CBarrier]
  | _ => []
  end.

Definition collectives (tr : trace) : list collective := flat_map collective_of tr.

(** The events after the first clock reading, the events before the first
    clock reading, and the events between the first two readings. *)
Fixpoint after_wtime (tr : trace) : trace :=
  match tr with
  | [] => []
  | Wtime :: rest => rest
  | _ :: rest => after_wtime rest
  end.

Fixpoint until_wtime (tr : trace) : trace :=
  match tr with
  | [] => []
  | Wtime :: _ => []
  | e :: rest => e :: until_wtime rest
  end.

Definition timed (tr : trace) : trace := until_wtime (after_wtime tr).

Definition is_wtime (e : event) : bool :=
  match e with Wtime => true | _ => false end.

Definition is_lock (e : event) : bool :=
  match e with WinLockAll | WinUnlockAll => true | _ => false end.

Definition is_print_str (e : event) : bool :=
  match e with PrintStr _ => true | _ => false end.

(** Events of the one-sided data path and its epoch, clock readings and
    printed results: what only the putter does. *)
Definition putter_only (e : event) : bool :=
  match e with
  | Put _ _ _ | WinFlush _ | WinLockAll | WinUnlockAll | Wtime
  | PrintStr _ | PrintRow _ _ _ | PrintInt _ | PrintFloat _ => true
  | _ => false
  end.

(** The argument of the last occurrence of option [c] in a list of
    options, [d] when there is none. *)
Fixpoint last_arg (c : ascii) (ops : list (ascii * Z)) (d : Z) : Z :=
  match ops with
  | [] => d
  | (op, arg) :: rest => last_arg c rest (if (op =? c)%char then arg else d)
  end.

(** The sample of thread [tid]: the difference of its two clock readings. *)
Definition elapsed (c : clock) (tid : Z) : float :=
  let '(t_start, t_end) := c tid in PrimFloat.sub t_end t_start.

(** ** Real values of binary64 numbers and their rounding

    The primitive operations on [float] are specified by [SpecFloat], where
    a product or a quotient goes through [binary_round_aux]. The
    definitions below state what that rounding computes. *)

(** The power of two of exponent [e]. *)
Definition bpow (e : Z) : R := powerRZ 2 e.

(** The invariant of the right shifts: the mantissa of the record is the
    integer part of [u], its round and sticky bits tell where the rest of
    [u] lies with respect to one half. *)
Definition located (u : R) (mrs : shr_record) : Prop :=
  0 <= shr_m mrs /\
  match shr_r mrs, shr_s mrs with
  | false, false => u = IZR (shr_m mrs)
  | false, true => (IZR (shr_m mrs) < u < IZR (shr_m mrs) + 1 / 2)%R
  | true, false => u = (IZR (shr_m mrs) + 1 / 2)%R
  | true, true => (IZR (shr_m mrs) + 1 / 2 < u < IZR (shr_m mrs) + 1)%R
  end.

(** The number made of a rounded mantissa [m2 <= 2^53] at exponent [e1]:
    zero, the mantissa as it is, 2^52 at the next exponent when the
    rounding carried, infinity when the exponent exceeds 971. *)
Definition finalize (m2 e1 : Z) : spec_float :=
  match m2 with
  | Z0 => S754_zero false
  | Zpos p =>
      if m2 =? 9007199254740992 then
        if e1 + 1 <=? 971 then S754_finite false 4503599627370496 (e1 + 1)
        else S754_infinity false
      else if e1 <=? 971 then S754_finite false p e1 else S754_infinity false
  | Zneg _ => S754_nan
  end.

(** [f] is [v] rounded: at the exponent [e1] of the binade of [v] (or the
    least exponent), with a mantissa within one half of [v / 2^e1]. *)
Definition Rounds (v : R) (f : spec_float) : Prop :=
  exists e1 m2,
    -1074 <= e1 /\ 0 <= m2 /\
    (v < bpow (e1 + 53))%R /\
    (-1074 < e1 -> (bpow (e1 + 52) <= v)%R) /\
    (Rabs (v - IZR m2 * bpow e1) <= bpow e1 / 2)%R /\
    f = finalize m2 e1.

(** The value of the finite number of mantissa [m] and exponent [e]. *)
Definition F2R (m : positive) (e : Z) : R := (IZR (Zpos m) * bpow e)%R.

(** Zero, a positive finite number or plus infinity. *)
Definition nonneg_class (f : spec_float) : Prop :=
  f = S754_zero false \/ f = S754_infinity false \/ exists m e, f = S754_finite false m e.

(** * Properties *)

(** ** Arithmetic on [int] *)

Lemma wrap_in_range z : CInt.in_range z -> CInt.wrap z = z.
Proof.
  unfold CInt.in_range, CInt.wrap, CInt.INT_MIN, CInt.INT_MAX. intros H.
  rewrite Z.mod_small; lia.
Qed.

Lemma wrap_range z : CInt.in_range (CInt.wrap z).
Proof.
  unfold CInt.in_range, CInt.wrap, CInt.INT_MIN, CInt.INT_MAX.
  pose proof (Z.mod_pos_bound (z + 2147483648) 4294967296 ltac:(lia)). lia.
Qed.

Lemma div_nonneg a b : 0 <= a -> 0 < b -> CInt.div a b = Some (a / b).
Proof.
  intros Ha Hb. unfold CInt.div.
  destruct (Z.eqb_spec b 0) as [->|_]; [lia|].
  destruct (Z.eqb_spec a CInt.INT_MIN) as [->|_]; [unfold CInt.INT_MIN in Ha; lia|].
  simpl. now rewrite Z.quot_div_nonneg.
Qed.

(** Division by the batch size never traps. *)
Lemma div_window a : CInt.div a WINDOW_SIZE = Some (Z.quot a WINDOW_SIZE).
Proof.
  unfold CInt.div, WINDOW_SIZE. cbn [Z.eqb]. now rewrite andb_false_r.
Qed.

(** ** Normalisation *)

Section Normalisation.

Variables window nthreads nmessages : Z.
Hypothesis window_pos : 0 < window.
Hypothesis nthreads_pos : 0 < nthreads.
Hypothesis nmessages_pos : 0 < nmessages.
Hypothesis nmessages_int : nmessages <= CInt.INT_MAX.

Lemma per_thread_bounds : 0 <= nmessages / nthreads <= nmessages.
Proof.
  split.
  - apply Z.div_pos; lia.
  - apply Z.div_le_upper_bound; nia.
Qed.

Lemma normalized_bounds :
  0 <= window * (nmessages / nthreads / window) <= nmessages / nthreads.
Proof.
  pose proof per_thread_bounds as Hp.
  split.
  - apply Z.mul_nonneg_nonneg; [lia|]. apply Z.div_pos; lia.
  - apply Z.mul_div_le; lia.
Qed.

Lemma normalize_with_value :
  normalize_with window nthreads nmessages =
  Some (window * (nmessages / nthreads / window)).
Proof.
  pose proof per_thread_bounds as Hp.
  pose proof normalized_bounds as Hn.
  unfold normalize_with.
  rewrite div_nonneg by lia. cbn [bind].
  rewrite div_nonneg by lia. cbn [bind].
  unfold CInt.mul. rewrite wrap_in_range; [reflexivity|].
  unfold CInt.in_range, CInt.INT_MIN, CInt.INT_MAX in *. lia.
Qed.

Lemma multiple_below (m : Z) :
  m mod window = 0 -> m <= nmessages / nthreads ->
  m <= window * (nmessages / nthreads / window).
Proof.
  intros Hm Hle.
  rewrite (Z.div_mod m window) by lia. rewrite Hm, Z.add_0_r.
  apply Z.mul_le_mono_nonneg_l; [lia|].
  apply Z.div_le_mono; lia.
Qed.

End Normalisation.

Lemma normalize_value nthreads nmessages :
  0 < nthreads -> 0 < nmessages <= CInt.INT_MAX ->
  normalize nthreads nmessages = Some (64 * (nmessages / nthreads / 64)).
Proof.
  intros Ht Hm. unfold normalize, WINDOW_SIZE.
  apply normalize_with_value; lia.
Qed.

Lemma batch_count_value nthreads nmessages :
  0 < nthreads -> 0 < nmessages <= CInt.INT_MAX ->
  batch_count nthreads nmessages = Some (nmessages / nthreads / 64).
Proof.
  intros Ht Hm. unfold batch_count. rewrite normalize_value by lia. cbn [bind].
  unfold win_posts_of. rewrite div_window. unfold WINDOW_SIZE.
  pose proof (normalized_bounds 64 nthreads nmessages ltac:(lia) ltac:(lia) ltac:(lia)).
  rewrite Z.quot_div_nonneg by lia.
  now rewrite Z.mul_comm, Z.div_mul by lia.
Qed.

(** The test of the warning compares the normalised count with itself. *)
Lemma warning_of_multiple k :
  CInt.in_range (64 * k) -> warning_of (64 * k) = Some false.
Proof.
  intros Hk. unfold warning_of, win_posts_of. rewrite div_window. cbn [bind].
  unfold WINDOW_SIZE. rewrite Z.mul_comm, Z.quot_mul by lia.
  unfold CInt.mul. rewrite (Z.mul_comm k 64), wrap_in_range by assumption.
  now rewrite Z.eqb_refl.
Qed.

Lemma warns_never nthreads nmessages :
  0 < nthreads -> 0 < nmessages <= CInt.INT_MAX ->
  warns nthreads nmessages = Some false.
Proof.
  intros Ht Hm. unfold warns. rewrite normalize_value by lia. cbn [bind].
  apply warning_of_multiple.
  pose proof (normalized_bounds 64 nthreads nmessages ltac:(lia) ltac:(lia) ltac:(lia)).
  pose proof (per_thread_bounds nthreads nmessages ltac:(lia) ltac:(lia)).
  unfold CInt.in_range, CInt.INT_MIN, CInt.INT_MAX in *. lia.
Qed.

(** ** The parallel region never traps; runs with positive counts *)

Lemma thread_body_events rank g tid :
  thread_body rank g tid = Some (thread_events rank g tid).
Proof.
  unfold thread_events, thread_body. rewrite div_window. reflexivity.
Qed.

Lemma all_threads_events rank g tids :
  all_threads rank g tids = Some (map (thread_events rank g) tids).
Proof.
  induction tids as [|tid rest IH]; [reflexivity|].
  cbn [all_threads map]. rewrite thread_body_events, IH. reflexivity.
Qed.

(** The events of a thread once the message count is a multiple of the
    batch size: no warning, [k] batches in each of the two loops. *)
Lemma thread_events_multiple rank nthreads k msg_size tid :
  CInt.in_range (64 * k) ->
  thread_events rank (mkGlobals nthreads (64 * k) msg_size) tid =
  if is_putter rank then
    [PosixMemalign PAGE_SIZE (CInt.size_mul msg_size 1)]
    ++ put_loop k rank msg_size (target_disp tid msg_size)
    ++ omp_master tid [MPIBarrier] ++ [OmpBarrier]
    ++ [Wtime]
    ++ put_loop k rank msg_size (target_disp tid msg_size)
    ++ [Wtime]
    ++ [Free]
  else
    omp_master tid [MPIBarrier] ++ [OmpBarrier]
    ++ omp_master tid [WinFree] ++ [OmpBarrier].
Proof.
  intros Hk. unfold thread_events, thread_body. rewrite div_window.
  cbn [bind num_messages message_size]. unfold WINDOW_SIZE.
  rewrite (Z.mul_comm 64 k), Z.quot_mul by lia.
  unfold CInt.mul at 1. rewrite (Z.mul_comm k 64), wrap_in_range by assumption.
  rewrite Z.eqb_refl. reflexivity.
Qed.

Lemma normalized_in_range nthreads nmessages :
  0 < nthreads -> 0 < nmessages <= CInt.INT_MAX ->
  CInt.in_range (64 * (nmessages / nthreads / 64)).
Proof.
  intros Ht Hm.
  pose proof (normalized_bounds 64 nthreads nmessages ltac:(lia) ltac:(lia) ltac:(lia)).
  pose proof (per_thread_bounds nthreads nmessages ltac:(lia) ltac:(lia)).
  unfold CInt.in_range, CInt.INT_MIN, CInt.INT_MAX in *. lia.
Qed.

(** The elapsed-time array *)

Lemma store_at (l1 l2 : list float) (x v : float) :
  store (l1 ++ x :: l2) (List.length l1) v = l1 ++ v :: l2.
Proof.
  induction l1 as [|a l1 IH]; [reflexivity|].
  cbn [app List.length store]. now rewrite IH.
Qed.

Lemma record_elapsed_store c l tid :
  record_elapsed c l tid = store l (Z.to_nat tid) (elapsed c tid).
Proof. unfold record_elapsed, elapsed. destruct (c tid). reflexivity. Qed.

Lemma measure_fold c k : forall j (l1 : list float),
  List.length l1 = j ->
  fold_left (record_elapsed c) (map Z.of_nat (seq j k)) (l1 ++ repeat 0%float k) =
  l1 ++ map (elapsed c) (map Z.of_nat (seq j k)).
Proof.
  induction k as [|k IH]; intros j l1 Hl; [reflexivity|].
  cbn [seq map fold_left repeat].
  rewrite record_elapsed_store, Nat2Z.id, <- Hl, store_at.
  replace (l1 ++ elapsed c (Z.of_nat (List.length l1)) :: repeat 0%float k)
    with ((l1 ++ [elapsed c (Z.of_nat (List.length l1))]) ++ repeat 0%float k)
    by (now rewrite <- app_assoc).
  rewrite IH by (rewrite length_app; cbn; lia).
  now rewrite <- app_assoc.
Qed.

(** With a positive thread count the team is [0 .. num_threads - 1], the
    array is allocated and every thread finds its slot. *)
Lemma thread_ids_pos nthreads :
  0 < nthreads -> thread_ids nthreads = map Z.of_nat (seq 0 (Z.to_nat nthreads)).
Proof. intros H. unfold thread_ids. now rewrite Z.max_r by lia. Qed.

Lemma measure_putter c nthreads :
  0 < nthreads ->
  measure c nthreads = Some (map (elapsed c) (thread_ids nthreads)).
Proof.
  intros Ht. unfold measure, calloc.
  destruct (Z.ltb_spec nthreads 0) as [|_]; [lia|]. cbn [bind].
  rewrite thread_ids_pos by assumption. f_equal.
  apply (measure_fold c (Z.to_nat nthreads) 0%nat []). reflexivity.
Qed.

(** A negative thread count leaves the putter without its array. *)
Lemma measure_null c nthreads : nthreads < 0 -> measure c nthreads = None.
Proof.
  intros Ht. unfold measure, calloc.
  destruct (Z.ltb_spec nthreads 0) as [_|]; [reflexivity|lia].
Qed.

Lemma run_bench_runs rank size c nthreads nmessages msg_size :
  0 < nthreads -> 0 < nmessages <= CInt.INT_MAX ->
  exists r,
    run_bench rank size c (mkGlobals nthreads nmessages msg_size) = Some r /\
    run_globals r = mkGlobals nthreads (64 * (nmessages / nthreads / 64)) msg_size /\
    run_threads r =
      map (thread_events rank (mkGlobals nthreads (64 * (nmessages / nthreads / 64)) msg_size))
          (thread_ids nthreads) /\
    run_ret r = 0.
Proof.
  intros Ht Hm. unfold run_bench. cbn [num_threads num_messages message_size].
  rewrite normalize_value by lia. cbn [bind].
  rewrite all_threads_events. cbn [bind].
  rewrite measure_putter by assumption. cbn [bind].
  destruct (is_putter rank).
  - destruct (aggregate _ _) as [m report]. cbn [bind].
    eexists. split; [reflexivity|]. cbn. auto.
  - cbn [bind]. eexists. split; [reflexivity|]. cbn. auto.
Qed.

(** C1. For positive thread count, batch size and message count, the
    normalisation at the head of [run_bench] sets the per-thread message
    count to [window * floor (num_messages / num_threads / window)]: a
    multiple of the batch size, at most [num_messages / num_threads], and
    the largest such multiple. The run carries this count (at the batch
    size of the program), and one thread with 640000 messages keeps all
    640000. *)
Theorem normalization_largest_multiple (window nthreads nmessages : Z) :
  0 < window <= CInt.INT_MAX ->
  0 < nthreads <= CInt.INT_MAX ->
  0 < nmessages <= CInt.INT_MAX ->
  let n := window * (nmessages / nthreads / window) in
  normalize_with window nthreads nmessages = Some n /\
  n mod window = 0 /\
  n <= nmessages / nthreads /\
  (forall m, m mod window = 0 -> m <= nmessages / nthreads -> m <= n) /\
  (window = WINDOW_SIZE ->
   forall rank size c msg_size,
     exists r, run_bench rank size c (mkGlobals nthreads nmessages msg_size) = Some r /\
               num_messages (run_globals r) = n) /\
  normalize 1 640000 = Some 640000.
Proof.
  intros Hw Ht Hm n. subst n.
  split; [apply normalize_with_value; lia|].
  split; [rewrite Z.mul_comm; apply Z.mod_mul; lia|].
  split; [apply normalized_bounds; lia|].
  split; [intros m; apply multiple_below; lia|].
  split; [|reflexivity].
  intros -> rank size c msg_size.
  destruct (run_bench_runs rank size c nthreads nmessages msg_size) as (r & Hr & Hg & _);
    [lia|lia|].
  exists r. split; [exact Hr|]. rewrite Hg. reflexivity.
Qed.

Lemma normalization_largest_multiple_witness :
  (0 < 64 <= CInt.INT_MAX) /\ (0 < 4 <= CInt.INT_MAX) /\ (0 < 1000 <= CInt.INT_MAX) /\
  normalize_with 64 4 1000 = Some 192 /\
  192 mod 64 = 0 /\
  192 <= 1000 / 4.
Proof.
  assert (H1 : 0 < 64 <= CInt.INT_MAX) by (unfold CInt.INT_MAX; lia).
  assert (H2 : 0 < 4 <= CInt.INT_MAX) by (unfold CInt.INT_MAX; lia).
  assert (H3 : 0 < 1000 <= CInt.INT_MAX) by (unfold CInt.INT_MAX; lia).
  pose proof (normalization_largest_multiple 64 4 1000 H1 H2 H3) as (Hn & Hmod & Hle & _).
  repeat split; try lia; assumption.
Defined.

(** ** The accuracy warning *)

Lemma Forall_for_loop (P : event -> Prop) n body :
  Forall P body -> Forall P (for_loop n body).
Proof.
  intros Hb. induction n as [|n IH]; cbn [for_loop]; [constructor|].
  apply Forall_app. split; assumption.
Qed.

Lemma Forall_put_loop (P : event -> Prop) k rank msg_size disp :
  (forall count r d, P (Put count r d)) -> (forall r, P (WinFlush r)) ->
  Forall P (put_loop k rank msg_size disp).
Proof.
  intros Hput Hflush. unfold put_loop, put_batch.
  apply Forall_for_loop, Forall_app. split.
  - apply Forall_for_loop. constructor; [apply Hput|constructor].
  - constructor; [apply Hflush|constructor].
Qed.

Lemma Forall_omp_master (P : event -> Prop) tid block :
  Forall P block -> Forall P (omp_master tid block).
Proof.
  intros H. unfold omp_master. destruct (tid =? 0); [assumption|constructor].
Qed.

Lemma aggregate_loop_output (P : event -> Prop) g todo :
  (forall i r b, P (PrintRow i r b)) ->
  forall thread_i m out, Forall P out ->
    Forall P (snd (aggregate_loop g todo thread_i (m, out))).
Proof.
  intros Hrow. induction todo as [|todo IH]; intros thread_i m out Hout.
  - exact Hout.
  - cbn [aggregate_loop aggregate_step]. apply IH.
    apply Forall_app. split; [exact Hout|]. constructor; [apply Hrow|constructor].
Qed.

Ltac quiet :=
  repeat first
    [ apply Forall_nil
    | apply Forall_cons; [reflexivity|]
    | apply Forall_app; split
    | apply Forall_put_loop; reflexivity
    | apply Forall_omp_master ].

Lemma thread_events_no_warning rank nthreads k msg_size tid :
  CInt.in_range (64 * k) ->
  Forall (fun e => is_warning e = false)
    (thread_events rank (mkGlobals nthreads (64 * k) msg_size) tid).
Proof.
  intros Hk. rewrite thread_events_multiple by assumption.
  destruct (is_putter rank); quiet.
Qed.

Lemma aggregate_no_warning g m :
  Forall (fun e => is_warning e = false) (snd (aggregate g m)).
Proof.
  unfold aggregate.
  pose proof (aggregate_loop_output (fun e => is_warning e = false) g
                (Z.to_nat (num_threads g)) ltac:(reflexivity) 0
                (mkMemory (t_elapsed m) 0%float 0%float)
                [PrintStr "Thread Mmsgs/s MB/s"] ltac:(quiet)) as H.
  destruct (aggregate_loop _ _ _ _) as [m1 out]. cbn [snd] in *. quiet. exact H.
Qed.

Lemma run_bench_no_warning rank size c nthreads nmessages msg_size r :
  0 < nthreads -> 0 < nmessages <= CInt.INT_MAX ->
  run_bench rank size c (mkGlobals nthreads nmessages msg_size) = Some r ->
  existsb is_warning (run_events r) = false.
Proof.
  intros Ht Hm Hr.
  assert (Hall : Forall (fun e => is_warning e = false) (run_events r)).
  { pose proof (normalized_in_range nthreads nmessages Ht Hm) as Hk.
    revert Hr. unfold run_bench. cbn [num_threads num_messages message_size].
    rewrite normalize_value by lia. cbn [bind].
    rewrite all_threads_events. cbn [bind].
    rewrite measure_putter by assumption. cbn [bind].
    pose proof (aggregate_no_warning
                  (mkGlobals nthreads (64 * (nmessages / nthreads / 64)) msg_size)
                  (mkMemory (map (elapsed c) (thread_ids nthreads)) 0%float 0%float))
      as Hagg.
    destruct (is_putter rank).
    - destruct (aggregate _ _) as [m' report]. cbn [snd bind] in *.
      intros [= <-]. unfold run_events. cbn [run_prologue run_threads run_epilogue].
      quiet; try assumption.
      apply Forall_concat, Forall_map, Forall_forall. intros tid _.
      apply thread_events_no_warning, Hk.
    - cbn [bind]. intros [= <-]. unfold run_events.
      cbn [run_prologue run_threads run_epilogue].
      quiet.
      apply Forall_concat, Forall_map, Forall_forall. intros tid _.
      apply thread_events_no_warning, Hk. }
  destruct (existsb is_warning (run_events r)) eqn:E; [|reflexivity].
  apply existsb_exists in E. destruct E as (e & Hin & He).
  rewrite Forall_forall in Hall. rewrite (Hall e Hin) in He. discriminate.
Qed.

(** [main] with the one option [-T n], the thread level granted and two
    processes: the run of [n] threads on the default count and size. *)
Lemma main_with_threads n rank c :
  main [("T"%char, n)] false MPI_THREAD_MULTIPLE 2 rank c =
  match run_bench rank 2 c (mkGlobals n DEF_NUM_MESSAGES DEF_MESSAGE_SIZE) with
  | None =>
      mkExec [InitThread MPI_THREAD_MULTIPLE; CommSize; SetNumThreads n; CommRank]
             None Trapped
  | Some r =>
      mkExec ([InitThread MPI_THREAD_MULTIPLE; CommSize; SetNumThreads n; CommRank]
              ++ run_events r ++ [Finalize])
             (Some r) (Returned (if run_ret r =? 0 then 0 else EXIT_FAILURE))
  end.
Proof. reflexivity. Qed.

(** C2, at the failing input. With the option [-T 3] and the default
    640000 messages the normalisation keeps 213312 messages per thread,
    639936 in all: 64 of the requested messages are dropped. The test of
    the warning reads the count after the normalisation and is false; on
    either rank the run takes place with the normalised count and [main]
    prints no warning. *)
Theorem dropped_messages_raise_no_warning :
  normalize 3 640000 = Some 213312 /\
  640000 - 3 * 213312 = 64 /\
  warns 3 640000 = Some false /\
  (forall rank c,
     let e := main [("T"%char, 3)] false MPI_THREAD_MULTIPLE 2 rank c in
     exists r,
       exec_bench e = Some r /\
       num_messages (run_globals r) = 213312 /\
       existsb is_warning (exec_trace e) = false).
Proof.
  split; [reflexivity|]. split; [reflexivity|]. split; [reflexivity|].
  intros rank c e. subst e. rewrite main_with_threads.
  assert (Hm : 0 < DEF_NUM_MESSAGES <= CInt.INT_MAX)
    by (unfold DEF_NUM_MESSAGES, CInt.INT_MAX; lia).
  destruct (run_bench_runs rank 2 c 3 DEF_NUM_MESSAGES DEF_MESSAGE_SIZE)
    as (r & Hr & Hg & _); [lia|exact Hm|].
  pose proof (run_bench_no_warning rank 2 c 3 _ _ r ltac:(lia) Hm Hr) as Hq.
  rewrite Hr. exists r. cbn [exec_bench exec_trace].
  split; [reflexivity|]. split; [rewrite Hg; reflexivity|].
  rewrite existsb_app, existsb_app, Hq. reflexivity.
Qed.

(** The example the specification gives for the warning drops nothing:
    with four threads and 640000 messages the normalised per-thread count
    is 160000 = 64 * 2500, not 159936, and the four threads send all
    640000 messages. *)
Lemma scenario_four_threads_drops_nothing :
  normalize 4 640000 = Some 160000 /\
  (160000 =? 159936) = false /\
  4 * 160000 = 640000 /\
  warns 4 640000 = Some false.
Proof. vm_compute. repeat split. Qed.

(** ** The metrics aggregation *)

Section Aggregation.

Variable g : globals.

Let rate_at (l : list float) (i : nat) : float :=
  my_msg_rate (num_messages g) (nth i l 0%float).
Let bw_at (l : list float) (i : nat) : float :=
  my_bandwidth (message_size g) (num_messages g) (nth i l 0%float).

Lemma aggregate_loop_spec todo :
  forall j m out,
    aggregate_loop g todo (Z.of_nat j) (m, out) =
    (mkMemory (t_elapsed m)
       (fold_left PrimFloat.add (map (rate_at (t_elapsed m)) (seq j todo)) (msg_rate m))
       (fold_left PrimFloat.add (map (bw_at (t_elapsed m)) (seq j todo)) (bandwidth m)),
     out ++ map (fun i => PrintRow (Z.of_nat i) (rate_at (t_elapsed m) i) (bw_at (t_elapsed m) i))
                (seq j todo)).
Proof.
  induction todo as [|todo IH]; intros j m out.
  - cbn. rewrite app_nil_r. destruct m; reflexivity.
  - cbn [aggregate_loop aggregate_step].
    replace (Z.of_nat j + 1) with (Z.of_nat (S j)) by lia.
    rewrite IH. cbn [t_elapsed msg_rate bandwidth seq map fold_left].
    rewrite Nat2Z.id, <- app_assoc. reflexivity.
Qed.

Lemma aggregate_spec m :
  let n := Z.to_nat (num_threads g) in
  let l := t_elapsed m in
  aggregate g m =
  (mkMemory l
     (fold_left PrimFloat.add (map (rate_at l) (seq 0 n)) 0%float)
     (fold_left PrimFloat.add (map (bw_at l) (seq 0 n)) 0%float),
   ([PrintStr "Thread Mmsgs/s MB/s"]
    ++ map (fun i => PrintRow (Z.of_nat i) (rate_at l i) (bw_at l i)) (seq 0 n))
   ++ [PrintStr "Size Threads Mmsgs/s MB/s";
       PrintInt (message_size g); PrintInt (num_threads g);
       PrintFloat (fold_left PrimFloat.add (map (rate_at l) (seq 0 n)) 0%float);
       PrintFloat (fold_left PrimFloat.add (map (bw_at l) (seq 0 n)) 0%float)]).
Proof.
  intros n l. unfold aggregate.
  change 0 with (Z.of_nat 0). rewrite aggregate_loop_spec. reflexivity.
Qed.

End Aggregation.

Lemma map_nth_seq {A B} (f : A -> B) (d : A) (l : list A) :
  map (fun i => f (nth i l d)) (seq 0 (List.length l)) = map f l.
Proof.
  induction l as [|a l IH]; [reflexivity|].
  cbn [List.length seq map nth]. f_equal.
  rewrite <- seq_shift, map_map. exact IH.
Qed.

Lemma nth_map_seq {B} (f : nat -> B) (n t : nat) (d : B) :
  (t < n)%nat -> nth t (map f (seq 0 n)) d = f t.
Proof.
  intros Ht.
  rewrite (nth_indep _ d (f 0%nat)) by (now rewrite length_map, length_seq).
  rewrite (map_nth f (seq 0 n) 0%nat t), seq_nth by assumption. reflexivity.
Qed.

Lemma rows_of_app out1 out2 : rows_of (out1 ++ out2) = rows_of out1 ++ rows_of out2.
Proof.
  induction out1 as [|e out1 IH]; [reflexivity|].
  destruct e; cbn [rows_of app]; rewrite IH; reflexivity.
Qed.

Lemma rows_of_rows (f : nat -> Z * float * float) (idx : list nat) :
  rows_of (map (fun i => PrintRow (fst (fst (f i))) (snd (fst (f i))) (snd (f i))) idx)
  = map f idx.
Proof.
  induction idx as [|i idx IH]; [reflexivity|].
  cbn [map rows_of]. rewrite IH. destruct (f i) as [[a b] c]. reflexivity.
Qed.

Lemma spec_rate_is_code nmessages sample :
  my_msg_rate nmessages sample = spec_rate nmessages sample.
Proof. reflexivity. Qed.

Lemma spec_bandwidth_is_code msg_size nmessages sample :
  my_bandwidth msg_size nmessages sample = spec_bandwidth msg_size nmessages sample.
Proof. reflexivity. Qed.

(** C4. On any vector of per-thread elapsed seconds, message size and
    per-thread message count, the reporting block prints for thread [t] the
    rate [count / samples[t] / 1e6] and the bandwidth
    [size * count / (1024 * 1024) / samples[t]], and its two totals are the
    sums of these per-thread values, accumulated from zero in thread order.
    For samples 1.0 and 2.0, size 1024 and count 1000000 the rates are 1.0
    and 0.5, the bandwidths 976.5625 and 488.28125, the total rate 1.5. *)
Theorem aggregate_rates_and_sums (samples : list float) (msg_size nmessages : Z)
    (rate0 bw0 : float) :
  let g := mkGlobals (Z.of_nat (List.length samples)) nmessages msg_size in
  let result := aggregate g (mkMemory samples rate0 bw0) in
  let rows := rows_of (snd result) in
  List.length rows = List.length samples /\
  (forall t, (t < List.length samples)%nat ->
     nth t rows (0, 0%float, 0%float) =
     (Z.of_nat t,
      spec_rate nmessages (nth t samples 0%float),
      spec_bandwidth msg_size nmessages (nth t samples 0%float))) /\
  msg_rate (fst result) = spec_sum (map (spec_rate nmessages) samples) /\
  bandwidth (fst result) = spec_sum (map (spec_bandwidth msg_size nmessages) samples) /\
  aggregate (mkGlobals 2 1000000 1024) (mkMemory [1%float; 2%float] rate0 bw0) =
  (mkMemory [1%float; 2%float] 1.5%float 1464.84375%float,
   [PrintStr "Thread Mmsgs/s MB/s";
    PrintRow 0 1%float 976.5625%float;
    PrintRow 1 0.5%float 488.28125%float;
    PrintStr "Size Threads Mmsgs/s MB/s";
    PrintInt 1024; PrintInt 2; PrintFloat 1.5%float; PrintFloat 1464.84375%float]).
Proof.
  intros g result rows.
  assert (Hrows : rows =
    map (fun i => (Z.of_nat i,
                   spec_rate nmessages (nth i samples 0%float),
                   spec_bandwidth msg_size nmessages (nth i samples 0%float)))
        (seq 0 (List.length samples))).
  { subst rows result. rewrite aggregate_spec.
    cbn [snd num_threads num_messages message_size t_elapsed g].
    rewrite Nat2Z.id, !rows_of_app. cbn [rows_of app]. rewrite app_nil_r.
    apply (rows_of_rows
             (fun i => (Z.of_nat i,
                        spec_rate nmessages (nth i samples 0%float),
                        spec_bandwidth msg_size nmessages (nth i samples 0%float)))). }
  split; [rewrite Hrows; now rewrite length_map, length_seq|].
  split.
  { intros t Ht. rewrite Hrows.
    exact (nth_map_seq
             (fun i => (Z.of_nat i,
                        spec_rate nmessages (nth i samples 0%float),
                        spec_bandwidth msg_size nmessages (nth i samples 0%float)))
             (List.length samples) t _ Ht). }
  subst result. rewrite aggregate_spec.
  cbn [fst msg_rate bandwidth num_threads num_messages message_size t_elapsed g].
  rewrite Nat2Z.id.
  split; [unfold spec_sum; f_equal; apply (map_nth_seq (spec_rate nmessages))|].
  split; [unfold spec_sum; f_equal; apply (map_nth_seq (spec_bandwidth msg_size nmessages))|].
  reflexivity.
Qed.

(** C9. The reporting block reads the sample array and leaves it as it
    was; its sums and printed values depend on the samples, the message
    size and the message count only, not on what the sums held before; and
    running it again on the memory it produced gives the same memory and
    the same printed values, bit for bit. *)
Theorem aggregate_idempotent (g : globals) (m : memory) :
  t_elapsed (fst (aggregate g m)) = t_elapsed m /\
  aggregate g (fst (aggregate g m)) = aggregate g m /\
  (forall rate0 bw0,
     aggregate g (mkMemory (t_elapsed m) rate0 bw0) = aggregate g m).
Proof.
  assert (Hdep : forall m1 m2, t_elapsed m1 = t_elapsed m2 ->
                               aggregate g m1 = aggregate g m2).
  { intros m1 m2 H. rewrite !aggregate_spec. cbv zeta. rewrite H. reflexivity. }
  assert (Hkeep : t_elapsed (fst (aggregate g m)) = t_elapsed m)
    by (rewrite aggregate_spec; reflexivity).
  split; [exact Hkeep|]. split.
  - apply Hdep, Hkeep.
  - intros rate0 bw0. apply Hdep. reflexivity.
Qed.

(** ** Phase order *)

Lemma phase_eqb_refl p : phase_eqb p p = true.
Proof. destruct p; cbn; auto using Nat.eqb_refl. Qed.

Lemma phase_eqb_eq p q : phase_eqb p q = true -> p = q.
Proof.
  destruct p, q; cbn; intros H; try discriminate; try reflexivity.
  apply Nat.eqb_eq in H. now subst.
Qed.

Section Segments.

Variables (o : observer) (P : phase).

(** Events of a segment: they emit [P] or nothing and leave the observer. *)
Let in_segment (e : event) : Prop :=
  phase_of o e = (Some P, o) \/ phase_of o e = (None, o).

Lemma observe_stay tr rest :
  Forall in_segment tr -> observe o P (tr ++ rest) = observe o P rest.
Proof.
  induction 1 as [|e tr He _ IH]; [reflexivity|].
  cbn [app observe]. destruct He as [-> | ->]; [|exact IH].
  rewrite phase_eqb_refl. exact IH.
Qed.

Lemma observe_silent cur tr rest :
  Forall (fun e => phase_of o e = (None, o)) tr ->
  observe o cur (tr ++ rest) = observe o cur rest.
Proof.
  induction 1 as [|e tr He _ IH]; [reflexivity|].
  cbn [app observe]. rewrite He. exact IH.
Qed.

Lemma observe_segment cur tr rest :
  Forall in_segment tr ->
  Exists (fun e => phase_of o e = (Some P, o)) tr ->
  observe o cur (tr ++ rest) =
  if phase_eqb P cur then observe o P rest else P :: observe o P rest.
Proof.
  induction 1 as [|e tr He Htr IH]; intros Hex.
  - inversion Hex.
  - cbn [app observe]. destruct He as [He | He].
    + rewrite He. destruct (phase_eqb P cur) eqn:E.
      * apply phase_eqb_eq in E. subst cur. now apply observe_stay.
      * f_equal. now apply observe_stay.
    + rewrite He. apply IH. inversion Hex as [? ? Hhd | ? ? Htl]; subst; [|exact Htl].
      rewrite He in Hhd. discriminate.
Qed.

End Segments.

Lemma put_loop_first k rank msg_size disp :
  1 <= k ->
  Exists (fun e => is_put e = true) (put_loop k rank msg_size disp).
Proof.
  intros Hk. unfold put_loop.
  destruct (Z.to_nat k) as [|n] eqn:E; [lia|].
  cbn [for_loop]. apply Exists_app. left.
  unfold put_batch. apply Exists_app. left.
  unfold WINDOW_SIZE. cbn. now left.
Qed.

Lemma master_thread (f : Z -> trace) nthreads :
  0 < nthreads -> nth 0%nat (map f (thread_ids nthreads)) [] = f 0.
Proof.
  intros Ht. rewrite thread_ids_pos by assumption.
  destruct (Z.to_nat nthreads) as [|n] eqn:E; [lia|]. reflexivity.
Qed.

Lemma run_bench_sender size c nthreads nmessages msg_size :
  0 < nthreads -> 0 < nmessages <= CInt.INT_MAX ->
  let g := mkGlobals nthreads (64 * (nmessages / nthreads / 64)) msg_size in
  let agg :=
    aggregate g (mkMemory (map (elapsed c) (thread_ids nthreads)) 0%float 0%float) in
  run_bench 0 size c (mkGlobals nthreads nmessages msg_size) =
  Some (mkRun g
          [Calloc nthreads; WinCreate false 0; WinLockAll]
          (map (thread_events 0 g) (thread_ids nthreads))
          ([WinUnlockAll; WinFree] ++ [MPIBarrier] ++ snd agg ++ [MPIBarrier; Free])
          (Some (fst agg)) 0).
Proof.
  intros Ht Hm g agg. unfold run_bench. cbn [num_threads num_messages message_size].
  rewrite normalize_value by lia. cbn [bind].
  rewrite all_threads_events. cbn [bind].
  change (is_putter 0) with true. cbv iota.
  rewrite measure_putter by assumption. cbn [bind]. fold g. fold agg.
  destruct agg as [m' report]. reflexivity.
Qed.

Lemma run_bench_target size c nthreads nmessages msg_size :
  0 < nthreads -> 0 < nmessages <= CInt.INT_MAX ->
  let g := mkGlobals nthreads (64 * (nmessages / nthreads / 64)) msg_size in
  let bytes := CInt.size_mul (CInt.size_mul msg_size 1) nthreads in
  run_bench 1 size c (mkGlobals nthreads nmessages msg_size) =
  Some (mkRun g
          [Calloc nthreads; PosixMemalign PAGE_SIZE bytes; WinCreate true bytes]
          (map (thread_events 1 g) (thread_ids nthreads))
          [MPIBarrier; MPIBarrier; Free]
          None 0).
Proof.
  intros Ht Hm g bytes. unfold run_bench. cbn [num_threads num_messages message_size].
  rewrite normalize_value by lia. cbn [bind].
  rewrite all_threads_events. cbn [bind].
  change (is_putter 1) with false. cbv iota. reflexivity.
Qed.

(** C5, as the code has it. With at least one batch per thread, thread 0
    of the sender goes through window creation, the shared lock, the
    warmup puts, a first barrier, the measured puts, the unlock, the
    release of the window, a second barrier, the report and a third
    barrier: no barrier lies between the measured puts and the unlock.
    Thread 0 of the target creates the window, passes the first barrier,
    releases the window and passes the two other barriers: its release
    call follows the first barrier only. *)
Theorem phase_order (nthreads nmessages msg_size size : Z) (c : clock) :
  0 < nthreads <= CInt.INT_MAX ->
  64 * nthreads <= nmessages <= CInt.INT_MAX ->
  (exists s, run_bench 0 size c (mkGlobals nthreads nmessages msg_size) = Some s /\
     phases (master_trace s) =
     [Idle; WindowReady; EpochOpen; Warmup; Barrier 1; Measuring;
      EpochClosed; WindowFreed; Barrier 2; Reported; Barrier 3]) /\
  (exists t, run_bench 1 size c (mkGlobals nthreads nmessages msg_size) = Some t /\
     phases (master_trace t) =
     [Idle; WindowReady; Barrier 1; WindowFreed; Barrier 2; Barrier 3] /\
     barriers_before_first is_win_free (master_trace t) = Some 1%nat).
Proof.
  intros Ht Hm.
  assert (Hk : 1 <= nmessages / nthreads / 64).
  { rewrite Z.div_div by lia. apply Z.div_le_lower_bound; lia. }
  pose proof (normalized_in_range nthreads nmessages ltac:(lia) ltac:(lia)) as Hr.
  split.
  - eexists. split; [apply run_bench_sender; lia|].
    unfold master_trace. cbn [run_prologue run_threads run_epilogue].
    rewrite master_thread by lia.
    rewrite thread_events_multiple by assumption.
    change (is_putter 0) with true. cbv iota.
    rewrite aggregate_spec. cbn [snd omp_master Z.eqb].
    unfold phases. rewrite <- !app_assoc.
    cbn [app observe phase_of phase_eqb clock_readings barriers_passed].
    rewrite (observe_segment (mkObs 0 0) Warmup _
               (put_loop (nmessages / nthreads / 64) 0 msg_size (target_disp 0 msg_size)));
      [| apply Forall_put_loop; intros; left; reflexivity
       | eapply Exists_impl; [|apply put_loop_first; exact Hk];
         intros [] He; try discriminate He; reflexivity ].
    cbn [app observe phase_of phase_eqb clock_readings barriers_passed Nat.eqb].
    rewrite (observe_stay (mkObs 1 1) Measuring
               (put_loop (nmessages / nthreads / 64) 0 msg_size (target_disp 0 msg_size)));
      [| apply Forall_put_loop; intros; left; reflexivity ].
    cbn [app observe phase_of phase_eqb clock_readings barriers_passed Nat.eqb].
    rewrite (observe_segment (mkObs 2 2) Reported _ (map _ _));
      [| apply Forall_map, Forall_forall; intros; left; reflexivity | ].
    + cbn [app observe phase_of phase_eqb clock_readings barriers_passed Nat.eqb].
      reflexivity.
    + cbn [num_threads]. destruct (Z.to_nat nthreads) as [|n] eqn:E; [lia|].
      cbn [seq map]. now left.
  - eexists. split; [apply run_bench_target; lia|].
    unfold master_trace. cbn [run_prologue run_threads run_epilogue].
    rewrite master_thread by lia.
    rewrite thread_events_multiple by assumption.
    change (is_putter 1) with false. cbv iota.
    split; reflexivity.
Qed.

Lemma phase_order_witness :
  (0 < 1 <= CInt.INT_MAX) /\ (64 * 1 <= 128 <= CInt.INT_MAX) /\
  (exists s, run_bench 0 2 still_clock (mkGlobals 1 128 8) = Some s /\
     phases (master_trace s) =
     [Idle; WindowReady; EpochOpen; Warmup; Barrier 1; Measuring;
      EpochClosed; WindowFreed; Barrier 2; Reported; Barrier 3]).
Proof.
  assert (H1 : 0 < 1 <= CInt.INT_MAX) by (unfold CInt.INT_MAX; lia).
  assert (H2 : 64 * 1 <= 128 <= CInt.INT_MAX) by (unfold CInt.INT_MAX; lia).
  pose proof (phase_order 1 128 8 2 still_clock H1 H2) as (Hs & _).
  repeat split; try lia; assumption.
Defined.

(** C5, the claim as stated fails: in the run of one thread with 128
    messages the phases of the sender are not those of the specified state
    machine, whose seventh phase is a barrier where the code unlocks; and
    the target's release of the window is preceded by one barrier, as is
    the sender's last put. *)
Lemma sender_skips_barrier_before_unlock :
  option_map (fun s => phases (master_trace s))
    (run_bench 0 2 still_clock (mkGlobals 1 128 8)) =
  Some [Idle; WindowReady; EpochOpen; Warmup; Barrier 1; Measuring;
        EpochClosed; WindowFreed; Barrier 2; Reported; Barrier 3] /\
  option_map (fun s => phases_eqb (phases (master_trace s)) spec_sender_phases)
    (run_bench 0 2 still_clock (mkGlobals 1 128 8)) = Some false /\
  nth 6 spec_sender_phases Idle = Barrier 2 /\
  option_map (fun s => barriers_before_last is_put (master_trace s))
    (run_bench 0 2 still_clock (mkGlobals 1 128 8)) = Some (Some 1%nat) /\
  option_map (fun t => barriers_before_first is_win_free (master_trace t))
    (run_bench 1 2 still_clock (mkGlobals 1 128 8)) = Some (Some 1%nat) /\
  match run_bench 0 2 still_clock (mkGlobals 1 128 8),
        run_bench 1 2 still_clock (mkGlobals 1 128 8) with
  | Some s, Some t => freed_after_all_puts (master_trace s) (master_trace t)
  | _, _ => true
  end = false.
Proof. vm_compute. repeat split. Qed.

(** ** [main]: options and bootstrap checks *)

Lemma getopt_loop_stops ops g out ret :
  getopt_loop ops g = inr (out, ret) ->
  (out = print_usage /\ ret = -1) \/
  (out = [PrintStr "Unrecognized argument"] /\ ret = EXIT_FAILURE).
Proof.
  revert g. induction ops as [|[op arg] rest IH]; intros g; cbn [getopt_loop].
  - discriminate.
  - destruct ((op =? "?")%char || (op =? "h")%char); [intros [= <- <-]; now left|].
    destruct (op =? "T")%char; [apply IH|].
    destruct (op =? "M")%char; [apply IH|].
    destruct (op =? "S")%char; [apply IH|].
    intros [= <- <-]. now right.
Qed.

Lemma thread_level_eqb_eq a b : thread_level_eqb a b = true <-> a = b.
Proof. destruct a, b; cbn; split; intros H; try reflexivity; discriminate. Qed.

(** C6. When the provided thread level is not [MPI_THREAD_MULTIPLE] or
    the communicator does not have exactly two processes, [main] runs no
    benchmark: its trace holds no allocation, no window creation and no
    printed result; and once the options are accepted it ends in
    [MPI_Abort] with error code 1. *)
Theorem bootstrap_failure_aborts (ops : list (ascii * Z)) (extra_args : bool)
    (provided : thread_level) (size rank : Z) (c : clock) :
  provided <> MPI_THREAD_MULTIPLE \/ size <> 2 ->
  let e := main ops extra_args provided size rank c in
  existsb allocates_or_reports (exec_trace e) = false /\
  exec_bench e = None /\
  (forall g, getopt_loop ops defaults = inl g -> extra_args = false ->
     exec_outcome e = Aborted 1 /\
     last (exec_trace e) Finalize = Abort 1).
Proof.
  intros Hbad e. subst e. unfold main.
  destruct (getopt_loop ops defaults) as [parsed | [out ret]] eqn:Hopts.
  - destruct extra_args.
    + split; [reflexivity|]. split; [reflexivity|]. intros g _ H. discriminate H.
    + destruct (thread_level_eqb provided MPI_THREAD_MULTIPLE) eqn:Hp; cbn [negb].
      * apply thread_level_eqb_eq in Hp.
        destruct (Z.eqb_spec size 2) as [Hs|Hs]; [destruct Hbad; contradiction|].
        cbn [negb]. repeat split; reflexivity.
      * repeat split; reflexivity.
  - destruct (getopt_loop_stops _ _ _ _ Hopts) as [[-> ->] | [-> ->]];
      (split; [reflexivity|]; split; [reflexivity|]; intros g H; discriminate H).
Qed.

Lemma bootstrap_failure_aborts_witness :
  (MPI_THREAD_SERIALIZED <> MPI_THREAD_MULTIPLE \/ 3 <> 2) /\
  existsb allocates_or_reports
    (exec_trace (main [("T"%char, 4)] false MPI_THREAD_SERIALIZED 3 0 still_clock)) = false /\
  exec_bench (main [("T"%char, 4)] false MPI_THREAD_SERIALIZED 3 0 still_clock) = None.
Proof.
  assert (H : MPI_THREAD_SERIALIZED <> MPI_THREAD_MULTIPLE \/ 3 <> 2) by (right; lia).
  pose proof (bootstrap_failure_aborts [("T"%char, 4)] false MPI_THREAD_SERIALIZED 3 0
                still_clock H) as (Ht & Hb & _).
  repeat split; assumption.
Defined.

(** ** The batch size *)

Lemma for_loop_app n m body :
  for_loop (n + m) body = for_loop n body ++ for_loop m body.
Proof.
  induction n as [|n IH]; [reflexivity|].
  cbn [Nat.add for_loop]. now rewrite IH, app_assoc.
Qed.

Lemma data_path_app tr1 tr2 : data_path (tr1 ++ tr2) = data_path tr1 ++ data_path tr2.
Proof. apply filter_app. Qed.

Lemma data_path_id tr :
  Forall (fun e => is_put e || is_flush e = true) tr -> data_path tr = tr.
Proof.
  induction 1 as [|e tr He _ IH]; [reflexivity|].
  unfold data_path in *. cbn [filter]. now rewrite He, IH.
Qed.

Lemma data_path_put_loop k rank msg_size disp :
  data_path (put_loop k rank msg_size disp) = put_loop k rank msg_size disp.
Proof. apply data_path_id, Forall_put_loop; reflexivity. Qed.

Lemma data_path_omp_master tid e :
  is_put e || is_flush e = false -> data_path (omp_master tid [e]) = [].
Proof.
  intros He. unfold omp_master, data_path. destruct (tid =? 0); [|reflexivity].
  cbn [filter]. now rewrite He.
Qed.

(** Whatever the globals, the data path of a thread is a number of
    batches, each of 64 puts to one displacement and one flush. *)
Lemma thread_events_batches rank g tid :
  exists n,
    data_path (thread_events rank g tid) =
    for_loop n
      (for_loop 64 [Put (message_size g) (CInt.add rank 1) (target_disp tid (message_size g))]
       ++ [WinFlush (CInt.add rank 1)]).
Proof.
  unfold thread_events, thread_body. rewrite div_window. cbn [bind].
  set (win_posts := Z.quot (num_messages g) WINDOW_SIZE).
  assert (Hw : forall b : bool, data_path (if b then [PrintStr warning_text] else []) = [])
    by (intros []; reflexivity).
  rewrite data_path_app, Hw, app_nil_l.
  destruct (is_putter rank).
  - exists (Z.to_nat win_posts + Z.to_nat win_posts)%nat.
    rewrite !data_path_app, !data_path_put_loop, data_path_omp_master by reflexivity.
    cbn [data_path filter is_put is_flush orb app]. rewrite app_nil_r.
    rewrite for_loop_app. reflexivity.
  - exists 0%nat.
    rewrite !data_path_app, !data_path_omp_master by reflexivity. reflexivity.
Qed.

Lemma run_bench_threads rank size c g r :
  run_bench rank size c g = Some r ->
  run_threads r =
  map (thread_events rank (run_globals r)) (thread_ids (num_threads (run_globals r))) /\
  message_size (run_globals r) = message_size g.
Proof.
  unfold run_bench. destruct (normalize _ _) as [n|]; [|discriminate]. cbn [bind].
  rewrite all_threads_events. cbn [bind].
  destruct (if is_putter rank then _ else _) as [[m' report]|]; [|discriminate].
  cbn [bind]. intros [= <-]. cbn. split; reflexivity.
Qed.

Lemma getopt_loop_window pre arg post g :
  forallb (fun o => sets_parameter (fst o)) pre = true ->
  getopt_loop (pre ++ ("W"%char, arg) :: post) g =
  inr ([PrintStr "Unrecognized argument"], EXIT_FAILURE).
Proof.
  revert g. induction pre as [|[op a] pre IH]; intros g Hpre.
  - reflexivity.
  - cbn [forallb fst] in Hpre. apply andb_prop in Hpre. destruct Hpre as [Hop Hpre].
    cbn [app getopt_loop]. unfold sets_parameter in Hop.
    destruct (Ascii.eqb_spec op "T") as [->|HT]; [cbn; now apply IH|].
    destruct (Ascii.eqb_spec op "M") as [->|HM]; [cbn; now apply IH|].
    destruct (Ascii.eqb_spec op "S") as [->|HS]; [cbn; now apply IH|].
    discriminate Hop.
Qed.

Lemma getopt_loop_has_window ops arg g :
  In ("W"%char, arg) ops -> exists out ret, getopt_loop ops g = inr (out, ret) /\ ret <> 0.
Proof.
  revert g. induction ops as [|[op a] rest IH]; intros g Hin; [destruct Hin|].
  cbn [getopt_loop].
  destruct ((op =? "?")%char || (op =? "h")%char) eqn:Hh.
  { do 2 eexists. split; [reflexivity|]. lia. }
  destruct Hin as [Heq | Hin].
  - injection Heq as -> ->. cbn. do 2 eexists. split; [reflexivity|].
    unfold EXIT_FAILURE. lia.
  - destruct (op =? "T")%char; [now apply IH|].
    destruct (op =? "M")%char; [now apply IH|].
    destruct (op =? "S")%char; [now apply IH|].
    do 2 eexists. split; [reflexivity|]. unfold EXIT_FAILURE. lia.
Qed.

(** C10. The batch size is the constant 64: whatever the options, in a
    run that takes place the data path of every thread is a number of
    batches of exactly 64 puts followed by one flush. The option [W] has
    no case in the option loop: placed after options that set a parameter,
    it makes [main] print [Unrecognized argument] and return
    [EXIT_FAILURE] without initialising MPI or running the benchmark, and
    wherever it stands among the options no benchmark runs and the return
    value is not zero. *)
Theorem window_size_is_fixed (pre post : list (ascii * Z)) (arg : Z)
    (extra_args : bool) (provided : thread_level) (size rank : Z) (c : clock) :
  forallb (fun o => sets_parameter (fst o)) pre = true ->
  main (pre ++ ("W"%char, arg) :: post) extra_args provided size rank c =
    mkExec [PrintStr "Unrecognized argument"] None (Returned EXIT_FAILURE) /\
  WINDOW_SIZE = 64 /\
  (forall ops,
     In ("W"%char, arg) ops ->
     exec_bench (main ops extra_args provided size rank c) = None /\
     exists ret, exec_outcome (main ops extra_args provided size rank c) = Returned ret /\
                 ret <> 0) /\
  (forall ops r,
     exec_bench (main ops extra_args provided size rank c) = Some r ->
     Forall (fun t =>
               exists n put flush,
                 is_put put = true /\ is_flush flush = true /\
                 data_path t = for_loop n (for_loop 64 [put] ++ [flush]))
            (run_threads r)).
Proof.
  intros Hpre. split; [|split; [reflexivity|split]].
  - unfold main. rewrite getopt_loop_window by assumption. reflexivity.
  - intros ops Hin. unfold main.
    destruct (getopt_loop_has_window ops arg defaults Hin) as (out & ret & -> & Hret).
    split; [reflexivity|]. exists ret. split; [reflexivity|assumption].
  - intros ops r. unfold main.
    destruct (getopt_loop ops defaults) as [parsed | [out ret]]; [|discriminate].
    destruct extra_args; [discriminate|].
    destruct (negb (thread_level_eqb provided MPI_THREAD_MULTIPLE)); [discriminate|].
    destruct (negb (size =? 2)); [discriminate|].
    destruct (run_bench rank size c (large_message_default parsed)) as [r'|] eqn:Hrun;
      [|discriminate].
    cbn [exec_bench]. intros [= ->].
    destruct (run_bench_threads _ _ _ _ _ Hrun) as [-> _].
    apply Forall_map, Forall_forall. intros tid _.
    destruct (thread_events_batches rank (run_globals r) tid) as (n & Hn).
    exists n. do 2 eexists. split; [|split; [|exact Hn]]; reflexivity.
Qed.

Lemma window_size_is_fixed_witness :
  forallb (fun o => sets_parameter (fst o)) [("T"%char, 4); ("S"%char, 1024)] = true /\
  main ([("T"%char, 4); ("S"%char, 1024)] ++ ("W"%char, 32) :: [("M"%char, 6400)])
       false MPI_THREAD_MULTIPLE 2 0 still_clock =
    mkExec [PrintStr "Unrecognized argument"] None (Returned EXIT_FAILURE).
Proof.
  assert (H : forallb (fun o => sets_parameter (fst o))
                [("T"%char, 4); ("S"%char, 1024)] = true) by reflexivity.
  pose proof (window_size_is_fixed [("T"%char, 4); ("S"%char, 1024)] [("M"%char, 6400)] 32
                false MPI_THREAD_MULTIPLE 2 0 still_clock H) as (Hmain & _).
  split; assumption.
Defined.

(** ** The batches of a thread *)

Lemma after_wtime_app pre rest :
  Forall (fun e => is_wtime e = false) pre ->
  after_wtime (pre ++ Wtime :: rest) = rest.
Proof.
  induction 1 as [|e pre He _ IH]; [reflexivity|].
  cbn [app]. destruct e; try discriminate He; exact IH.
Qed.

Lemma until_wtime_app pre rest :
  Forall (fun e => is_wtime e = false) pre ->
  until_wtime (pre ++ Wtime :: rest) = pre.
Proof.
  induction 1 as [|e pre He _ IH]; [reflexivity|].
  cbn [app]. destruct e; try discriminate He; cbn [until_wtime]; now rewrite IH.
Qed.

Lemma filter_for_loop (f : event -> bool) n body :
  filter f (for_loop n body) = for_loop n (filter f body).
Proof.
  induction n as [|n IH]; [reflexivity|].
  cbn [for_loop]. now rewrite filter_app, IH.
Qed.

Lemma length_for_loop n (body : trace) :
  List.length (for_loop n body) = (n * List.length body)%nat.
Proof.
  induction n as [|n IH]; [reflexivity|].
  cbn [for_loop]. rewrite length_app, IH. lia.
Qed.

Lemma put_loop_counts k rank msg_size disp :
  List.length (filter is_put (put_loop k rank msg_size disp)) = (Z.to_nat k * 64)%nat /\
  List.length (filter is_flush (put_loop k rank msg_size disp)) = Z.to_nat k.
Proof.
  unfold put_loop, put_batch. rewrite !filter_for_loop, !length_for_loop, !filter_app,
    !filter_for_loop, !length_app, !length_for_loop.
  cbn [filter is_put is_flush List.length]. unfold WINDOW_SIZE. split; lia.
Qed.

(** What comes before the first clock reading and what lies between the
    two readings. *)
Lemma clock_brackets pre loop post :
  Forall (fun e => is_wtime e = false) pre ->
  Forall (fun e => is_wtime e = false) loop ->
  until_wtime (pre ++ [Wtime] ++ loop ++ [Wtime] ++ post) = pre /\
  timed (pre ++ [Wtime] ++ loop ++ [Wtime] ++ post) = loop.
Proof.
  intros Hpre Hloop. cbn [app]. split.
  - now apply until_wtime_app.
  - unfold timed. rewrite after_wtime_app by exact Hpre. now apply until_wtime_app.
Qed.

(** C3, as the code has it. The normalisation does not force a batch. For
    positive parameters every thread of the putter runs
    [num_messages / num_threads / 64] iterations of the batch (64 puts and
    a flush) in its warmup loop, before its first clock reading, and as
    many in its measured loop, between its two readings; this is the
    count [batch_count] gives. It is at least one exactly when
    [num_messages >= 64 * num_threads]; below that the normalised count is
    0 and no thread issues a put or a flush. *)
Theorem threads_run_quotient_batches (nthreads nmessages msg_size size : Z) (c : clock) :
  0 < nthreads <= CInt.INT_MAX ->
  0 < nmessages <= CInt.INT_MAX ->
  0 < msg_size <= CInt.INT_MAX ->
  let k := nmessages / nthreads / 64 in
  batch_count nthreads nmessages = Some k /\
  (1 <= k <-> 64 * nthreads <= nmessages) /\
  exists r,
    run_bench 0 size c (mkGlobals nthreads nmessages msg_size) = Some r /\
    List.length (run_threads r) = Z.to_nat nthreads /\
    Forall (fun t =>
              exists disp,
                data_path (until_wtime t) =
                  for_loop (Z.to_nat k) (put_batch 0 msg_size disp) /\
                timed t = for_loop (Z.to_nat k) (put_batch 0 msg_size disp) /\
                List.length (filter is_flush (timed t)) = Z.to_nat k)
           (run_threads r) /\
    (nmessages < 64 * nthreads ->
     k = 0 /\ num_messages (run_globals r) = 0 /\
     Forall (fun t => data_path t = []) (run_threads r)).
Proof.
  intros Ht Hm Hs k.
  assert (Hk0 : 0 <= k) by (apply Z.div_pos; [apply Z.div_pos|]; lia).
  assert (Hiff : 1 <= k <-> 64 * nthreads <= nmessages).
  { subst k. rewrite Z.div_div by lia. split; intros H.
    - pose proof (Z.mul_div_le nmessages (nthreads * 64) ltac:(lia)). nia.
    - apply Z.div_le_lower_bound; lia. }
  pose proof (normalized_in_range nthreads nmessages ltac:(lia) Hm) as Hr.
  fold k in Hr.
  split; [apply batch_count_value; lia|]. split; [exact Hiff|].
  eexists. split; [apply run_bench_sender; lia|].
  cbn [run_threads run_globals num_messages]. fold k.
  split; [rewrite thread_ids_pos by lia; now rewrite !length_map, length_seq|].
  split.
  - apply Forall_map, Forall_forall. intros tid _.
    rewrite thread_events_multiple by assumption.
    change (is_putter 0) with true. cbv iota.
    exists (target_disp tid msg_size).
    set (loop := put_loop k 0 msg_size (target_disp tid msg_size)).
    assert (Hloop : Forall (fun e => is_wtime e = false) loop)
      by (apply Forall_put_loop; reflexivity).
    destruct (clock_brackets
                ([PosixMemalign PAGE_SIZE (CInt.size_mul msg_size 1)] ++ loop
                 ++ omp_master tid [MPIBarrier] ++ [OmpBarrier])
                loop [Free]) as [Hwarm Htimed]; [quiet|exact Hloop|].
    rewrite <- !app_assoc in Hwarm, Htimed. rewrite Hwarm, Htimed.
    split; [|split].
    + rewrite !data_path_app, data_path_omp_master by reflexivity.
      unfold loop. rewrite data_path_put_loop.
      cbn [data_path filter is_put is_flush orb app]. now rewrite app_nil_r.
    + reflexivity.
    + apply put_loop_counts.
  - intros Hlt. assert (Hz : k = 0) by lia. rewrite Hz.
    split; [reflexivity|]. split; [reflexivity|].
    apply Forall_map, Forall_forall. intros tid _.
    rewrite thread_events_multiple by (rewrite <- Hz; assumption).
    change (is_putter 0) with true. cbv iota.
    unfold omp_master. destruct (tid =? 0); reflexivity.
Qed.

Lemma threads_run_quotient_batches_witness :
  (0 < 4 <= CInt.INT_MAX) /\ (0 < 640000 <= CInt.INT_MAX) /\ (0 < 8 <= CInt.INT_MAX) /\
  batch_count 4 640000 = Some 2500 /\
  exists r,
    run_bench 0 2 still_clock (mkGlobals 4 640000 8) = Some r /\
    List.length (run_threads r) = Z.to_nat 4.
Proof.
  assert (H1 : 0 < 4 <= CInt.INT_MAX) by (unfold CInt.INT_MAX; lia).
  assert (H2 : 0 < 640000 <= CInt.INT_MAX) by (unfold CInt.INT_MAX; lia).
  assert (H3 : 0 < 8 <= CInt.INT_MAX) by (unfold CInt.INT_MAX; lia).
  destruct (threads_run_quotient_batches 4 640000 8 2 still_clock H1 H2 H3)
    as (Hb & _ & r & Hr & Hl & _).
  split; [exact H1|]. split; [exact H2|]. split; [exact H3|].
  split; [exact Hb|]. exists r. split; assumption.
Defined.

(** C3, the claim as stated fails: four threads and 100 messages are
    positive parameters, the normalised count is 0, the batch count is 0
    and the sender issues no put at all. *)
Lemma batch_count_can_be_zero :
  normalize 4 100 = Some 0 /\
  batch_count 4 100 = Some 0 /\
  (1 <=? 0) = false /\
  option_map (fun r => filter is_put (run_events r))
    (run_bench 0 2 still_clock (mkGlobals 4 100 8)) = Some [].
Proof. vm_compute. repeat split. Qed.

(** ** Slots of the target window *)

Lemma in_for_loop e n body : In e (for_loop n body) -> In e body.
Proof.
  induction n as [|n IH]; cbn [for_loop]; [intros []|].
  intros H. apply in_app_or in H. destruct H; auto.
Qed.

(** Every put of thread [tid] writes [message_size] bytes at [target_disp]. *)
Lemma thread_puts rank g tid e :
  In e (thread_events rank g tid) -> is_put e = true ->
  e = Put (message_size g) (CInt.add rank 1) (target_disp tid (message_size g)).
Proof.
  intros Hin Hput.
  assert (Hd : In e (data_path (thread_events rank g tid))).
  { apply filter_In. split; [exact Hin|]. now rewrite Hput. }
  destruct (thread_events_batches rank g tid) as (n & Hn). rewrite Hn in Hd.
  apply in_for_loop, in_app_or in Hd. destruct Hd as [Hd | Hd].
  - apply in_for_loop in Hd. destruct Hd as [<- | []]. reflexivity.
  - destruct Hd as [<- | []]. discriminate Hput.
Qed.

(** X13. While [tid * message_size] fits an [int], the puts of distinct
    threads fall into their own slots, which do not meet. *)
Lemma slots_disjoint_in_range (msg_size i j : Z) :
  0 < msg_size -> 0 <= i -> 0 <= j -> i <> j ->
  i * msg_size <= CInt.INT_MAX -> j * msg_size <= CInt.INT_MAX ->
  disjoint (spec_slot msg_size i) (spec_slot msg_size j) /\
  (forall rank g e,
     message_size g = msg_size ->
     In e (thread_events rank g i) -> is_put e = true ->
     put_range e = Some (spec_slot msg_size i)).
Proof.
  intros Hs Hi Hj Hij Hio Hjo. split.
  - unfold disjoint, spec_slot. cbn [fst snd]. nia.
  - intros rank g e Hg Hin Hput.
    rewrite (thread_puts rank g i e Hin Hput), Hg. cbn [put_range].
    unfold target_disp, CInt.mul.
    rewrite wrap_in_range by (unfold CInt.in_range, CInt.INT_MIN; nia).
    unfold spec_slot. f_equal. f_equal. lia.
Qed.

(** C7, at the failing input: with a message size of 2^30 bytes the
    product [4 * message_size] does not fit an [int]; the displacement of
    thread 4 wraps to 0, its puts write the bytes that thread 0 writes,
    not its slot [[4 * 2^30, 5 * 2^30)]. *)
Theorem slot_displacement_wraps :
  target_disp 4 1073741824 = 0 /\
  target_disp 0 1073741824 = 0 /\
  spec_slot 1073741824 4 = (4294967296, 5368709120) /\
  option_map
    (fun r => (map put_range (firstn 1 (filter is_put (nth 0%nat (run_threads r) []))),
               map put_range (firstn 1 (filter is_put (nth 4%nat (run_threads r) [])))))
    (run_bench 0 2 still_clock (mkGlobals 5 320 1073741824)) =
  Some ([Some (0, 1073741824)], [Some (0, 1073741824)]).
Proof. vm_compute. repeat split. Qed.

(** ** Rate and bandwidth against elapsed time *)

(** C8, the claim as stated fails: 1.1875 seconds and the next double
    above it are two positive elapsed times, the second larger, for which
    the computed rate and the computed bandwidth of 640000 messages of 8
    bytes are the same doubles. *)
Lemma rounding_hides_a_longer_time :
  PrimFloat.ltb 0%float 1.1875%float = true /\
  PrimFloat.ltb 1.1875%float (PrimFloat.next_up 1.1875%float) = true /\
  my_msg_rate 640000 (PrimFloat.next_up 1.1875%float) = my_msg_rate 640000 1.1875%float /\
  my_bandwidth 8 640000 (PrimFloat.next_up 1.1875%float) = my_bandwidth 8 640000 1.1875%float /\
  PrimFloat.ltb (my_msg_rate 640000 (PrimFloat.next_up 1.1875%float))
                (my_msg_rate 640000 1.1875%float) = false /\
  PrimFloat.ltb (my_bandwidth 8 640000 (PrimFloat.next_up 1.1875%float))
                (my_bandwidth 8 640000 1.1875%float) = false.
Proof. vm_compute. repeat split. Qed.

(** * Further properties of [main] and [run_bench] *)

(** ** The option loop *)

Lemma getopt_loop_accepted ops : forall g,
  forallb (fun o => sets_parameter (fst o)) ops = true ->
  getopt_loop ops g =
  inl (mkGlobals (last_arg "T" ops (num_threads g))
                 (last_arg "M" ops (num_messages g))
                 (last_arg "S" ops (message_size g))).
Proof.
  induction ops as [|[op a] ops IH]; intros g Hops.
  - destruct g; reflexivity.
  - cbn [forallb fst] in Hops. apply andb_prop in Hops. destruct Hops as [Hop Hops].
    cbn [getopt_loop last_arg]. unfold sets_parameter in Hop.
    destruct (Ascii.eqb_spec op "T") as [->|HT]; [cbn; now rewrite IH|].
    destruct (Ascii.eqb_spec op "M") as [->|HM]; [cbn; now rewrite IH|].
    destruct (Ascii.eqb_spec op "S") as [->|HS]; [cbn; now rewrite IH|].
    discriminate Hop.
Qed.

Lemma getopt_loop_rejected pre op a post : forall g,
  forallb (fun o => sets_parameter (fst o)) pre = true ->
  sets_parameter op = false ->
  getopt_loop (pre ++ (op, a) :: post) g =
  if ((op =? "?") || (op =? "h"))%char then inr (print_usage, -1)
  else inr ([PrintStr "Unrecognized argument"], EXIT_FAILURE).
Proof.
  induction pre as [|[o b] pre IH]; intros g Hpre Hop.
  - cbn [app getopt_loop]. unfold sets_parameter in Hop.
    destruct ((op =? "?")%char || (op =? "h")%char); [reflexivity|].
    destruct (op =? "T")%char; [discriminate Hop|].
    destruct (op =? "M")%char; [discriminate Hop|].
    destruct (op =? "S")%char; [discriminate Hop|]. reflexivity.
  - cbn [forallb fst] in Hpre. apply andb_prop in Hpre. destruct Hpre as [Ho Hpre].
    cbn [app getopt_loop]. unfold sets_parameter in Ho.
    destruct (Ascii.eqb_spec o "T") as [->|HT]; [cbn; now apply IH|].
    destruct (Ascii.eqb_spec o "M") as [->|HM]; [cbn; now apply IH|].
    destruct (Ascii.eqb_spec o "S") as [->|HS]; [cbn; now apply IH|].
    discriminate Ho.
Qed.

(** ** The shape of a run *)

Lemma run_bench_shape rank size c g r :
  run_bench rank size c g = Some r ->
  exists n reported,
    normalize (num_threads g) (num_messages g) = Some n /\
    let g' := mkGlobals (num_threads g) n (message_size g) in
    let bytes := CInt.size_mul (CInt.size_mul (message_size g) 1) (num_threads g) in
    (if is_putter rank then
       exists samples,
         measure c (num_threads g) = Some samples /\
         reported =
           (Some (fst (aggregate g' (mkMemory samples 0%float 0%float))),
            snd (aggregate g' (mkMemory samples 0%float 0%float)))
     else reported = (None, [])) /\
    r = mkRun g'
          ([Calloc (num_threads g)]
           ++ (if is_putter rank then [] else [PosixMemalign PAGE_SIZE bytes])
           ++ (if is_putter rank then [WinCreate false 0] else [WinCreate true bytes])
           ++ (if is_putter rank then [WinLockAll] else []))
          (map (thread_events rank g') (thread_ids (num_threads g)))
          ((if is_putter rank then [WinUnlockAll; WinFree] else [])
           ++ [MPIBarrier] ++ snd reported ++ [MPIBarrier; Free])
          (fst reported)
          0.
Proof.
  unfold run_bench. destruct (normalize _ _) as [n|]; [|discriminate]. cbn [bind].
  rewrite all_threads_events. cbn [bind num_threads num_messages message_size].
  intros H. exists n. cbv zeta.
  destruct (is_putter rank).
  - destruct (measure c (num_threads g)) as [samples|]; [|discriminate]. cbn [bind] in H.
    destruct (aggregate _ _) as [m' report] eqn:E. cbn [bind] in H.
    exists (Some m', report). split; [reflexivity|]. split.
    + exists samples. split; [reflexivity|]. now rewrite E.
    + now injection H as <-.
  - cbn [bind] in H. exists (None, []). split; [reflexivity|]. split; [reflexivity|].
    now injection H as <-.
Qed.

Lemma run_bench_returns_zero rank size c g r :
  run_bench rank size c g = Some r -> run_ret r = 0.
Proof.
  intros H. destruct (run_bench_shape _ _ _ _ _ H) as (n & reported & _ & _ & ->).
  reflexivity.
Qed.

(** The events of a thread, whatever the globals. *)
Lemma thread_events_unfold rank g tid :
  thread_events rank g tid =
  (if negb (CInt.mul (Z.quot (num_messages g) WINDOW_SIZE) WINDOW_SIZE =? num_messages g)
   then [PrintStr warning_text] else [])
  ++ (if is_putter rank then
        [PosixMemalign PAGE_SIZE (CInt.size_mul (message_size g) 1)]
        ++ put_loop (Z.quot (num_messages g) WINDOW_SIZE) rank (message_size g)
             (target_disp tid (message_size g))
        ++ omp_master tid [MPIBarrier] ++ [OmpBarrier]
        ++ [Wtime]
        ++ put_loop (Z.quot (num_messages g) WINDOW_SIZE) rank (message_size g)
             (target_disp tid (message_size g))
        ++ [Wtime]
        ++ [Free]
      else
        omp_master tid [MPIBarrier] ++ [OmpBarrier]
        ++ omp_master tid [WinFree] ++ [OmpBarrier]).
Proof.
  unfold thread_events, thread_body. rewrite div_window. reflexivity.
Qed.



(** X2. The first option that sets no parameter ends [main] before MPI
    is initialised: [h] and [?] print the usage text and return -1, any
    other character prints [Unrecognized argument] and returns
    [EXIT_FAILURE]; and a stray argument after accepted options prints the
    usage text and returns -1. Nothing but text is printed. *)
Theorem main_rejects_before_mpi (pre post : list (ascii * Z)) (op : ascii) (a : Z)
    (extra_args : bool) (provided : thread_level) (size rank : Z) (c : clock) :
  forallb (fun o => sets_parameter (fst o)) pre = true ->
  sets_parameter op = false ->
  main (pre ++ (op, a) :: post) extra_args provided size rank c =
    (if ((op =? "?") || (op =? "h"))%char
     then mkExec print_usage None (Returned (-1))
     else mkExec [PrintStr "Unrecognized argument"] None (Returned EXIT_FAILURE)) /\
  main pre true provided size rank c = mkExec print_usage None (Returned (-1)) /\
  forallb is_print_str
    (exec_trace (main (pre ++ (op, a) :: post) extra_args provided size rank c)) = true.
Proof.
  intros Hpre Hop.
  assert (H1 : main (pre ++ (op, a) :: post) extra_args provided size rank c =
    (if ((op =? "?") || (op =? "h"))%char
     then mkExec print_usage None (Returned (-1))
     else mkExec [PrintStr "Unrecognized argument"] None (Returned EXIT_FAILURE))).
  { unfold main. rewrite getopt_loop_rejected by assumption.
    destruct ((op =? "?")%char || (op =? "h")%char); reflexivity. }
  split; [exact H1|]. split.
  - unfold main. rewrite getopt_loop_accepted by assumption. reflexivity.
  - rewrite H1. destruct ((op =? "?")%char || (op =? "h")%char); reflexivity.
Qed.

Lemma main_rejects_before_mpi_witness :
  forallb (fun o => sets_parameter (fst o)) [("M"%char, 6400)] = true /\
  sets_parameter "h" = false /\
  main ([("M"%char, 6400)] ++ ("h"%char, 0) :: [("T"%char, 2)])
       false MPI_THREAD_MULTIPLE 2 0 still_clock =
  mkExec print_usage None (Returned (-1)).
Proof.
  assert (H1 : forallb (fun o => sets_parameter (fst o)) [("M"%char, 6400)] = true)
    by reflexivity.
  assert (H2 : sets_parameter "h" = false) by reflexivity.
  pose proof (main_rejects_before_mpi [("M"%char, 6400)] [("T"%char, 2)] "h" 0
                false MPI_THREAD_MULTIPLE 2 0 still_clock H1 H2) as (Hm & _).
  repeat split; assumption.
Defined.

(** ** Collective calls *)

Lemma aggregate_output (P : event -> Prop) g m :
  (forall s, P (PrintStr s)) -> (forall i r b, P (PrintRow i r b)) ->
  (forall z, P (PrintInt z)) -> (forall f, P (PrintFloat f)) ->
  Forall P (snd (aggregate g m)).
Proof.
  intros Hs Hr Hi Hf. rewrite aggregate_spec. cbn [snd].
  apply Forall_app. split; [apply Forall_app; split|].
  - constructor; [apply Hs|constructor].
  - apply Forall_map, Forall_forall. intros i _. apply Hr.
  - repeat (apply Forall_cons; [auto|]). apply Forall_nil.
Qed.

Lemma collectives_app tr1 tr2 : collectives (tr1 ++ tr2) = collectives tr1 ++ collectives tr2.
Proof. apply flat_map_app. Qed.

Lemma collectives_none tr :
  Forall (fun e => collective_of e = []) tr -> collectives tr = [].
Proof.
  induction 1 as [|e tr He _ IH]; [reflexivity|].
  unfold collectives in *. cbn [flat_map]. now rewrite He, IH.
Qed.

Lemma collectives_concat (l : list trace) :
  collectives (List.concat l) = flat_map collectives l.
Proof.
  induction l as [|t l IH]; [reflexivity|].
  cbn [List.concat flat_map]. now rewrite collectives_app, IH.
Qed.

Lemma collectives_thread rank g tid :
  collectives (thread_events rank g tid) =
  if tid =? 0 then (if is_putter rank then [CBarrier] else [CBarrier; CWinFree]) else [].
Proof.
  rewrite thread_events_unfold.
  assert (Hw : forall b : bool, collectives (if b then [PrintStr warning_text] else []) = [])
    by (intros []; reflexivity).
  assert (Hp : forall k d, collectives (put_loop k rank (message_size g) d) = [])
    by (intros; apply collectives_none, Forall_put_loop; reflexivity).
  rewrite collectives_app, Hw, app_nil_l.
  unfold omp_master.
  destruct (is_putter rank); rewrite !collectives_app, ?Hp; destruct (tid =? 0); reflexivity.
Qed.

Lemma thread_ids_cons nthreads :
  0 < nthreads ->
  thread_ids nthreads = 0 :: map (fun i => Z.of_nat (S i)) (seq 0 (Z.to_nat nthreads - 1)).
Proof.
  intros Ht. rewrite thread_ids_pos by assumption.
  destruct (Z.to_nat nthreads) as [|n] eqn:E; [lia|].
  cbn [seq map Nat.sub]. rewrite Nat.sub_0_r, <- seq_shift, map_map. reflexivity.
Qed.

(** X3. Whatever the rank and the parameters, a run with at least one
    thread issues the same five collective calls in the same order:
    window creation, barrier, window release, barrier, barrier; the two
    processes therefore meet in each of them. Thread 0 issues them all:
    the other threads of the team call no collective. *)
Theorem collectives_agree_across_ranks (rank size : Z) (c : clock) (g : globals)
    (r : bench_run) :
  run_bench rank size c g = Some r ->
  0 < num_threads g ->
  collectives (run_events r) = [CWinCreate; CBarrier; CWinFree; CBarrier; CBarrier] /\
  Forall (fun t => collectives t = []) (tl (run_threads r)).
Proof.
  intros Hr Ht.
  destruct (run_bench_shape _ _ _ _ _ Hr) as (n & reported & _ & Hrep & ->).
  cbv zeta in Hrep.
  assert (Hreport : collectives (snd reported) = []).
  { destruct (is_putter rank).
    - destruct Hrep as (samples & _ & ->). cbn [snd].
      apply collectives_none, aggregate_output; reflexivity.
    - subst reported. reflexivity. }
  clear Hrep.
  cbv zeta. unfold run_events. cbn [run_prologue run_threads run_epilogue].
  rewrite thread_ids_cons by assumption. cbn [map tl].
  assert (Hrest : Forall (fun t => collectives t = [])
            (map (thread_events rank (mkGlobals (num_threads g) n (message_size g)))
                 (map (fun i => Z.of_nat (S i)) (seq 0 (Z.to_nat (num_threads g) - 1))))).
  { apply Forall_map, Forall_map, Forall_forall. intros i _.
    rewrite collectives_thread.
    destruct (Z.eqb_spec (Z.of_nat (S i)) 0); [lia|reflexivity]. }
  split; [|exact Hrest].
  assert (Hothers : flat_map collectives
            (map (thread_events rank (mkGlobals (num_threads g) n (message_size g)))
                 (map (fun i => Z.of_nat (S i)) (seq 0 (Z.to_nat (num_threads g) - 1)))) = []).
  { induction Hrest as [|t l Hc _ IH]; [reflexivity|].
    cbn [flat_map]. now rewrite Hc, IH. }
  rewrite !collectives_app, collectives_concat. cbn [map flat_map].
  rewrite Hothers, collectives_thread, app_nil_r, Hreport. cbn [Z.eqb].
  destruct (is_putter rank); reflexivity.
Qed.

Lemma collectives_agree_across_ranks_witness :
  option_map (fun r => collectives (run_events r))
    (run_bench 1 2 still_clock (mkGlobals 3 192 8)) =
  Some [CWinCreate; CBarrier; CWinFree; CBarrier; CBarrier].
Proof.
  destruct (run_bench 1 2 still_clock (mkGlobals 3 192 8)) as [r|] eqn:Hr;
    [|vm_compute in Hr; discriminate Hr].
  cbn [option_map]. f_equal.
  assert (Ht : 0 < num_threads (mkGlobals 3 192 8)) by reflexivity.
  exact (proj1 (collectives_agree_across_ranks 1 2 still_clock (mkGlobals 3 192 8) r Hr Ht)).
Defined.

(** ** The normalisation on every pair of [int] values *)

Lemma quot_window_range q :
  CInt.in_range q -> CInt.in_range (64 * Z.quot q 64).
Proof.
  unfold CInt.in_range, CInt.INT_MIN, CInt.INT_MAX. intros Hq.
  pose proof (Z.quot_rem' q 64) as Hqr.
  destruct (Z_le_gt_dec 0 q) as [Hpos|Hneg].
  - pose proof (Z.rem_bound_pos q 64 Hpos ltac:(lia)). lia.
  - pose proof (Z.rem_nonpos q 64 ltac:(lia) ltac:(lia)).
    pose proof (Z.rem_bound_abs q 64 ltac:(lia)). lia.
Qed.

Lemma quot_in_range a b :
  CInt.in_range a -> b <> 0 -> ~ (a = CInt.INT_MIN /\ b = -1) ->
  CInt.in_range (Z.quot a b).
Proof.
  unfold CInt.in_range, CInt.INT_MIN, CInt.INT_MAX. intros Ha Hb Hmin.
  assert (Habs : Z.abs (Z.quot a b) <= Z.abs a).
  { rewrite <- Z.quot_abs by assumption.
    rewrite Z.quot_div_nonneg by lia.
    apply Z.div_le_upper_bound; [lia|].
    assert (0 <= Z.abs a) by lia. nia. }
  destruct (Z.eq_dec a (-2147483648)) as [->|Hne]; [|lia].
  destruct (Z.eq_dec b 1) as [->|Hb1]; [rewrite Z.quot_1_r; lia|].
  assert (Habs2 : Z.abs (Z.quot (-2147483648) b) <= 1073741824).
  { rewrite <- Z.quot_abs by assumption.
    rewrite Z.quot_div_nonneg by lia.
    apply Z.div_le_upper_bound; [lia|]. cbn [Z.abs]. lia. }
  lia.
Qed.

Lemma normalize_defined nthreads nmessages :
  normalize nthreads nmessages =
  if (nthreads =? 0) || ((nmessages =? CInt.INT_MIN) && (nthreads =? -1)) then None
  else Some (CInt.mul 64 (Z.quot (Z.quot nmessages nthreads) 64)).
Proof.
  unfold normalize, normalize_with, CInt.div at 1.
  destruct (nthreads =? 0); [reflexivity|]. cbn [orb].
  destruct ((nmessages =? CInt.INT_MIN) && (nthreads =? -1)); [reflexivity|].
  cbn [bind]. rewrite div_window. reflexivity.
Qed.

Lemma normalize_multiple nthreads nmessages n :
  CInt.in_range nthreads -> CInt.in_range nmessages ->
  normalize nthreads nmessages = Some n ->
  n = 64 * Z.quot (Z.quot nmessages nthreads) 64 /\ CInt.in_range n.
Proof.
  intros Ht Hm. rewrite normalize_defined.
  destruct (Z.eqb_spec nthreads 0) as [H0|H0]; [discriminate|]. cbn [orb].
  destruct (Z.eqb_spec nmessages CInt.INT_MIN) as [Hmin|Hmin];
    destruct (Z.eqb_spec nthreads (-1)) as [H1|H1]; cbn [andb]; try discriminate;
    intros [= <-]; unfold CInt.mul;
    (assert (Hr : CInt.in_range (64 * Z.quot (Z.quot nmessages nthreads) 64))
       by (apply quot_window_range, quot_in_range; [assumption|assumption|tauto]));
    rewrite wrap_in_range by exact Hr; (split; [reflexivity|exact Hr]).
Qed.

(** X4. For any thread and message counts in the range of [int], the
    accuracy warning is never printed: the warning test is false whenever
    the normalisation does not trap, and no run prints the warning text,
    also when the normalisation has dropped messages. *)
Theorem warning_is_never_printed (nthreads nmessages : Z) :
  CInt.in_range nthreads -> CInt.in_range nmessages ->
  (warns nthreads nmessages = None \/ warns nthreads nmessages = Some false) /\
  (forall rank size c msg_size r,
     run_bench rank size c (mkGlobals nthreads nmessages msg_size) = Some r ->
     existsb is_warning (run_events r) = false).
Proof.
  intros Ht Hm. split.
  - unfold warns. destruct (normalize nthreads nmessages) as [n|] eqn:Hn; [|now left].
    right. cbn [bind].
    destruct (normalize_multiple _ _ _ Ht Hm Hn) as [-> Hr].
    now apply warning_of_multiple.
  - intros rank size c msg_size r Hrun.
    destruct (run_bench_shape _ _ _ _ _ Hrun) as (n & reported & Hn & Hrep & ->).
    cbn [num_threads num_messages message_size] in *.
    destruct (normalize_multiple _ _ _ Ht Hm Hn) as [-> Hr].
    assert (Hall : forall tr, Forall (fun e => is_warning e = false) tr ->
                              existsb is_warning tr = false).
    { induction 1 as [|e tr He _ IH]; [reflexivity|]. cbn [existsb]. now rewrite He, IH. }
    assert (Hreport : Forall (fun e => is_warning e = false) (snd reported)).
    { destruct (is_putter rank).
      - destruct Hrep as (samples & _ & ->). cbn [snd]. apply aggregate_no_warning.
      - subst reported. constructor. }
    clear Hrep.
    apply Hall. cbv zeta. unfold run_events. cbn [run_prologue run_threads run_epilogue].
    apply Forall_app. split; [destruct (is_putter rank); quiet|].
    apply Forall_app. split.
    + apply Forall_concat, Forall_map, Forall_forall. intros tid _.
      now apply thread_events_no_warning.
    + destruct (is_putter rank); quiet; exact Hreport.
Qed.

Lemma warning_is_never_printed_witness :
  CInt.in_range 3 /\ CInt.in_range 640000 /\
  (warns 3 640000 = None \/ warns 3 640000 = Some false).
Proof.
  assert (H1 : CInt.in_range 3) by (unfold CInt.in_range, CInt.INT_MIN, CInt.INT_MAX; lia).
  assert (H2 : CInt.in_range 640000)
    by (unfold CInt.in_range, CInt.INT_MIN, CInt.INT_MAX; lia).
  pose proof (warning_is_never_printed 3 640000 H1 H2) as (Hw & _).
  repeat split; try apply H1; try apply H2; exact Hw.
Defined.

(** X5. The normalisation traps exactly on a zero thread count and on
    [INT_MIN / -1], and where it traps [run_bench] gives no run. On the
    putter a negative thread count gives no run either: the sample of
    thread 0 is stored through the NULL that [calloc] returned. With
    options that set the thread count to 0, [main] initialises MPI, asks
    for size and rank and then traps in the division, before any
    allocation or window. *)
Theorem run_traps_on_zero_threads (nthreads nmessages msg_size rank size : Z) (c : clock) :
  (normalize nthreads nmessages = None <->
   nthreads = 0 \/ (nmessages = CInt.INT_MIN /\ nthreads = -1)) /\
  (normalize nthreads nmessages = None ->
   run_bench rank size c (mkGlobals nthreads nmessages msg_size) = None) /\
  (is_putter rank = true -> nthreads < 0 ->
   run_bench rank size c (mkGlobals nthreads nmessages msg_size) = None) /\
  (forall ops,
     forallb (fun o => sets_parameter (fst o)) ops = true ->
     last_arg "T" ops DEF_NUM_THREADS = 0 ->
     main ops false MPI_THREAD_MULTIPLE 2 rank c =
     mkExec [InitThread MPI_THREAD_MULTIPLE; CommSize; SetNumThreads 0; CommRank]
            None Trapped).
Proof.
  split; [|split; [|split]].
  - rewrite normalize_defined.
    destruct (Z.eqb_spec nthreads 0) as [H0|H0]; cbn [orb]; [tauto|].
    destruct (Z.eqb_spec nmessages CInt.INT_MIN) as [Hmin|Hmin];
      destruct (Z.eqb_spec nthreads (-1)) as [H1|H1]; cbn [andb];
      split; intros H; try tauto; try discriminate H;
      destruct H as [H|[H H']]; contradiction.
  - intros Hn. unfold run_bench. cbn [num_threads num_messages message_size].
    rewrite Hn. reflexivity.
  - intros Hrank Hneg. unfold run_bench. cbn [num_threads num_messages message_size].
    destruct (normalize nthreads nmessages) as [n|]; cbn [bind]; [|reflexivity].
    rewrite all_threads_events. cbn [bind].
    rewrite Hrank, measure_null by assumption. reflexivity.
  - intros ops Hops HT. unfold main. rewrite getopt_loop_accepted by assumption.
    fold DEF_NUM_THREADS in HT. cbn [num_threads num_messages message_size defaults].
    rewrite HT.
    assert (Hg : forall g, num_threads g = 0 ->
              num_threads (large_message_default g) = 0 /\
              run_bench rank 2 c (large_message_default g) = None).
    { intros g Hg. unfold large_message_default.
      destruct (_ && _); cbn [num_threads]; (split; [exact Hg|]);
        unfold run_bench; cbn [num_threads num_messages message_size];
        rewrite normalize_defined, ?Hg; reflexivity. }
    destruct (Hg (mkGlobals 0 (last_arg "M" ops DEF_NUM_MESSAGES)
                    (last_arg "S" ops DEF_MESSAGE_SIZE)) eq_refl) as [Hnt Hnone].
    cbn [negb thread_level_eqb Z.eqb]. cbv iota. rewrite Hnone, Hnt. reflexivity.
Qed.

(** X6. For positive counts the normalisation never keeps more messages
    than requested and drops fewer than [64 * num_threads] of them in
    total: with [n] the normalised per-thread count,
    [0 <= num_messages - num_threads * n < 64 * num_threads]. *)
Theorem normalisation_drops_less_than_a_batch_per_thread (nthreads nmessages : Z) :
  0 < nthreads -> 0 < nmessages <= CInt.INT_MAX ->
  exists n,
    normalize nthreads nmessages = Some n /\
    0 <= nmessages - nthreads * n < 64 * nthreads.
Proof.
  intros Ht Hm. exists (64 * (nmessages / nthreads / 64)).
  split; [apply normalize_value; lia|].
  pose proof (Z.div_mod nmessages nthreads ltac:(lia)) as H1.
  pose proof (Z.mod_pos_bound nmessages nthreads ltac:(lia)) as H2.
  pose proof (Z.div_mod (nmessages / nthreads) 64 ltac:(lia)) as H3.
  pose proof (Z.mod_pos_bound (nmessages / nthreads) 64 ltac:(lia)) as H4.
  nia.
Qed.

Lemma normalisation_drops_less_than_a_batch_per_thread_witness :
  0 < 3 /\ 0 < 640000 <= CInt.INT_MAX /\
  exists n, normalize 3 640000 = Some n /\ 0 <= 640000 - 3 * n < 64 * 3.
Proof.
  assert (H1 : 0 < 3) by lia.
  assert (H2 : 0 < 640000 <= CInt.INT_MAX) by (unfold CInt.INT_MAX; lia).
  pose proof (normalisation_drops_less_than_a_batch_per_thread 3 640000 H1 H2) as Hn.
  split; [exact H1|]. split; [exact H2|exact Hn].
Defined.

(** ** The message count for large messages *)

Lemma last_arg_app c ops op a d :
  last_arg c (ops ++ [(op, a)]) d = if (op =? c)%char then a else last_arg c ops d.
Proof.
  revert d. induction ops as [|[o b] ops IH]; intros d; [reflexivity|].
  cbn [app last_arg]. apply IH.
Qed.

(** X7. With a message size above 16384 bytes, asking for 640000
    messages is not told from leaving the count at its default: the run
    is the one of 64000 messages. *)
Theorem explicit_default_count_is_replaced (ops : list (ascii * Z)) (extra_args : bool)
    (provided : thread_level) (size rank : Z) (c : clock) :
  forallb (fun o => sets_parameter (fst o)) ops = true ->
  LARGE_MSG_TH < last_arg "S" ops DEF_MESSAGE_SIZE ->
  main (ops ++ [("M"%char, DEF_NUM_MESSAGES)]) extra_args provided size rank c =
  main (ops ++ [("M"%char, DEF_LARGE_NUM_MESSAGES)]) extra_args provided size rank c.
Proof.
  intros Hops HS.
  assert (Hacc : forall v, forallb (fun o => sets_parameter (fst o))
                   (ops ++ [("M"%char, v)]) = true).
  { intros v. rewrite forallb_app, Hops. reflexivity. }
  unfold main. rewrite !getopt_loop_accepted by apply Hacc.
  rewrite !last_arg_app.
  change ("M" =? "T")%char with false. change ("M" =? "M")%char with true.
  change ("M" =? "S")%char with false. cbv iota.
  assert (Hg : large_message_default
                 (mkGlobals (last_arg "T" ops (num_threads defaults)) DEF_NUM_MESSAGES
                    (last_arg "S" ops (message_size defaults))) =
               large_message_default
                 (mkGlobals (last_arg "T" ops (num_threads defaults)) DEF_LARGE_NUM_MESSAGES
                    (last_arg "S" ops (message_size defaults)))).
  { unfold large_message_default. cbn [num_threads num_messages message_size defaults].
    destruct (Z.gtb_spec (last_arg "S" ops DEF_MESSAGE_SIZE) LARGE_MSG_TH) as [_|Hle];
      [|lia].
    reflexivity. }
  rewrite Hg. reflexivity.
Qed.

Lemma explicit_default_count_is_replaced_witness :
  forallb (fun o => sets_parameter (fst o)) [("S"%char, 32768)] = true /\
  LARGE_MSG_TH < last_arg "S" [("S"%char, 32768)] DEF_MESSAGE_SIZE /\
  main ([("S"%char, 32768)] ++ [("M"%char, DEF_NUM_MESSAGES)])
       false MPI_THREAD_MULTIPLE 2 0 still_clock =
  main ([("S"%char, 32768)] ++ [("M"%char, DEF_LARGE_NUM_MESSAGES)])
       false MPI_THREAD_MULTIPLE 2 0 still_clock.
Proof.
  assert (H1 : forallb (fun o => sets_parameter (fst o)) [("S"%char, 32768)] = true)
    by reflexivity.
  assert (H2 : LARGE_MSG_TH < last_arg "S" [("S"%char, 32768)] DEF_MESSAGE_SIZE)
    by reflexivity.
  pose proof (explicit_default_count_is_replaced [("S"%char, 32768)] false
                MPI_THREAD_MULTIPLE 2 0 still_clock H1 H2) as H.
  split; [exact H1|]. split; [exact H2|exact H].
Defined.

(** ** The target *)

Lemma Forall_existsb_false (p : event -> bool) tr :
  Forall (fun e => p e = false) tr -> existsb p tr = false.
Proof.
  induction 1 as [|e tr He _ IH]; [reflexivity|]. cbn [existsb]. now rewrite He, IH.
Qed.

(** X8. On a rank that is not a putter, with a positive thread count and
    a message size that is not negative, the run issues no put, no flush,
    no lock or unlock, reads no clock and prints nothing. Thread 0 allocates the sample array and the buffer,
    registers the buffer, meets the first barrier, releases the window
    and meets the two other barriers; the other threads only wait at the
    two thread barriers. *)
Theorem target_is_passive (rank size nthreads nmessages msg_size : Z) (c : clock)
    (r : bench_run) :
  is_putter rank = false ->
  0 < nthreads -> CInt.in_range nmessages -> 0 <= msg_size ->
  run_bench rank size c (mkGlobals nthreads nmessages msg_size) = Some r ->
  existsb putter_only (run_events r) = false /\
  master_trace r =
    [Calloc nthreads;
     PosixMemalign PAGE_SIZE (CInt.size_mul (CInt.size_mul msg_size 1) nthreads);
     WinCreate true (CInt.size_mul (CInt.size_mul msg_size 1) nthreads);
     MPIBarrier; OmpBarrier; WinFree; OmpBarrier;
     MPIBarrier; MPIBarrier; Free] /\
  Forall (fun t => t = [OmpBarrier; OmpBarrier]) (tl (run_threads r)).
Proof.
  intros Hrank Ht Hm _ Hrun.
  destruct (run_bench_shape _ _ _ _ _ Hrun) as (n & reported & Hn & Hrep & ->).
  cbn [num_threads num_messages message_size] in *.
  assert (Hq : CInt.in_range (Z.quot nmessages nthreads)).
  { apply quot_in_range; [assumption|lia|lia]. }
  assert (Hnv : n = 64 * Z.quot (Z.quot nmessages nthreads) 64 /\ CInt.in_range n).
  { rewrite normalize_defined in Hn.
    destruct (Z.eqb_spec nthreads 0) as [|_]; [lia|].
    destruct (Z.eqb_spec nthreads (-1)) as [|_]; [lia|].
    rewrite andb_false_r in Hn. cbn [orb] in Hn. injection Hn as <-.
    pose proof (quot_window_range _ Hq) as Hw.
    unfold CInt.mul. rewrite wrap_in_range by exact Hw. split; [reflexivity|exact Hw]. }
  destruct Hnv as [-> Hr].
  rewrite Hrank in Hrep. subst reported.
  cbv zeta. rewrite Hrank. cbn [fst snd].
  assert (Hthread : forall tid,
            thread_events rank
              (mkGlobals nthreads (64 * Z.quot (Z.quot nmessages nthreads) 64) msg_size) tid =
            omp_master tid [MPIBarrier] ++ [OmpBarrier]
            ++ omp_master tid [WinFree] ++ [OmpBarrier]).
  { intros tid. rewrite thread_events_multiple by assumption. now rewrite Hrank. }
  split; [|split].
  - apply Forall_existsb_false. unfold run_events.
    cbn [run_prologue run_threads run_epilogue].
    apply Forall_app. split; [quiet|].
    apply Forall_app. split; [|quiet].
    apply Forall_concat, Forall_map, Forall_forall. intros tid _.
    rewrite Hthread. quiet.
  - unfold master_trace. cbn [run_prologue run_threads run_epilogue].
    rewrite master_thread, Hthread by assumption. reflexivity.
  - cbn [run_threads]. rewrite thread_ids_cons by assumption. cbn [map tl].
    apply Forall_map, Forall_map, Forall_forall. intros i _.
    rewrite Hthread. unfold omp_master.
    destruct (Z.eqb_spec (Z.of_nat (S i)) 0); [lia|reflexivity].
Qed.

Lemma target_is_passive_witness :
  is_putter 1 = false /\ 0 < 2 /\ CInt.in_range 256 /\ 0 <= 8 /\
  option_map (fun r => existsb putter_only (run_events r))
    (run_bench 1 2 still_clock (mkGlobals 2 256 8)) = Some false.
Proof.
  assert (H0 : is_putter 1 = false) by reflexivity.
  assert (H1 : 0 < 2) by lia.
  assert (H2 : CInt.in_range 256) by (unfold CInt.in_range, CInt.INT_MIN, CInt.INT_MAX; lia).
  assert (H3 : 0 <= 8) by lia.
  split; [exact H0|]. split; [exact H1|]. split; [exact H2|]. split; [exact H3|].
  destruct (run_bench 1 2 still_clock (mkGlobals 2 256 8)) as [r|] eqn:Hr;
    [|vm_compute in Hr; discriminate Hr].
  cbn [option_map]. f_equal.
  exact (proj1 (target_is_passive 1 2 2 256 8 still_clock r H0 H1 H2 H3 Hr)).
Defined.

(** ** The elapsed-time array and the report of the putter *)

(** X9. On the putter, with positive counts in the range of [int], each
    thread's slot of the elapsed-time array holds the difference of that
    thread's own two clock readings, and the row printed for thread [tid]
    gives the rate and the bandwidth of the normalised message count over
    that difference. *)
Theorem report_rows_use_own_samples (nthreads nmessages msg_size size : Z) (c : clock) :
  0 < nthreads -> 0 < nmessages <= CInt.INT_MAX ->
  exists r,
    run_bench 0 size c (mkGlobals nthreads nmessages msg_size) = Some r /\
    option_map t_elapsed (run_memory r) = Some (map (elapsed c) (thread_ids nthreads)) /\
    rows_of (run_epilogue r) =
    map (fun tid =>
           (tid,
            my_msg_rate (num_messages (run_globals r)) (elapsed c tid),
            my_bandwidth msg_size (num_messages (run_globals r)) (elapsed c tid)))
        (thread_ids nthreads).
Proof.
  intros Ht Hm. eexists. split; [apply run_bench_sender; assumption|].
  cbn [run_memory run_epilogue run_globals num_messages option_map].
  rewrite aggregate_spec. cbn [fst snd t_elapsed num_threads num_messages message_size].
  split; [reflexivity|].
  rewrite !rows_of_app. cbn [rows_of app]. rewrite app_nil_r.
  rewrite thread_ids_pos by assumption. rewrite map_map.
  set (n := Z.to_nat nthreads).
  set (k := 64 * (nmessages / nthreads / 64)).
  set (F := fun i : nat => (Z.of_nat i,
                            my_msg_rate k (elapsed c (Z.of_nat i)),
                            my_bandwidth msg_size k (elapsed c (Z.of_nat i)))).
  transitivity
    (rows_of (map (fun i => PrintRow (fst (fst (F i))) (snd (fst (F i))) (snd (F i)))
                  (seq 0 n))).
  - rewrite ?app_nil_r. f_equal. apply map_ext_in. intros i Hi. apply in_seq in Hi.
    cbn [fst snd F].
    rewrite (nth_map_seq (fun j => elapsed c (Z.of_nat j)) n i 0%float) by lia.
    reflexivity.
  - rewrite (map_map Z.of_nat). apply (rows_of_rows F).
Qed.

Lemma report_rows_use_own_samples_witness :
  0 < 2 /\ 0 < 256 <= CInt.INT_MAX /\
  exists r,
    run_bench 0 2 still_clock (mkGlobals 2 256 8) = Some r /\
    option_map t_elapsed (run_memory r) = Some (map (elapsed still_clock) (thread_ids 2)).
Proof.
  assert (H1 : 0 < 2) by lia.
  assert (H2 : 0 < 256 <= CInt.INT_MAX) by (unfold CInt.INT_MAX; lia).
  destruct (report_rows_use_own_samples 2 256 8 2 still_clock H1 H2) as (r & Hr & He & _).
  split; [exact H1|]. split; [exact H2|]. exists r. split; assumption.
Defined.

(** ** What the clock of a thread brackets *)

(** X10. On the putter, with positive counts in the range of [int], what
    a thread does between its two clock readings is its measured loop and
    nothing else: puts and flushes only, as many puts as the normalised
    message count the rate is computed from, one flush per 64 puts; and
    the warmup before the first reading issues the same number of puts. *)
Theorem clock_brackets_the_counted_puts (nthreads nmessages msg_size size : Z) (c : clock) :
  0 < nthreads -> 0 < nmessages <= CInt.INT_MAX ->
  exists r,
    run_bench 0 size c (mkGlobals nthreads nmessages msg_size) = Some r /\
    List.length (run_threads r) = Z.to_nat nthreads /\
    Forall (fun t =>
              data_path (timed t) = timed t /\
              Z.of_nat (List.length (filter is_put (timed t))) = num_messages (run_globals r) /\
              64 * Z.of_nat (List.length (filter is_flush (timed t)))
                = num_messages (run_globals r) /\
              Z.of_nat (List.length (filter is_put (until_wtime t)))
                = num_messages (run_globals r))
           (run_threads r).
Proof.
  intros Ht Hm. eexists. split; [apply run_bench_sender; assumption|].
  cbn [run_threads run_globals num_messages].
  split; [rewrite thread_ids_pos by assumption; now rewrite !length_map, length_seq|].
  pose proof (normalized_in_range nthreads nmessages Ht Hm) as Hr.
  assert (Hk : 0 <= nmessages / nthreads / 64)
    by (apply Z.div_pos; [apply Z.div_pos|]; lia).
  set (k := nmessages / nthreads / 64) in *.
  apply Forall_map, Forall_forall. intros tid _.
  rewrite thread_events_multiple by assumption.
  change (is_putter 0) with true. cbv iota.
  set (loop := put_loop k 0 msg_size (target_disp tid msg_size)).
  assert (Hloop : Forall (fun e => is_wtime e = false) loop)
    by (apply Forall_put_loop; reflexivity).
  assert (Hpre : Forall (fun e => is_wtime e = false)
            ([PosixMemalign PAGE_SIZE (CInt.size_mul msg_size 1)] ++ loop
             ++ omp_master tid [MPIBarrier] ++ [OmpBarrier])).
  { quiet. }
  assert (Htimed : timed
            ([PosixMemalign PAGE_SIZE (CInt.size_mul msg_size 1)] ++ loop
             ++ omp_master tid [MPIBarrier] ++ [OmpBarrier] ++ [Wtime]
             ++ loop ++ [Wtime] ++ [Free]) = loop).
  { unfold timed.
    replace ([PosixMemalign PAGE_SIZE (CInt.size_mul msg_size 1)] ++ loop
             ++ omp_master tid [MPIBarrier] ++ [OmpBarrier] ++ [Wtime]
             ++ loop ++ [Wtime] ++ [Free])
      with (([PosixMemalign PAGE_SIZE (CInt.size_mul msg_size 1)] ++ loop
             ++ omp_master tid [MPIBarrier] ++ [OmpBarrier])
            ++ Wtime :: (loop ++ Wtime :: [Free]))
      by (now rewrite <- !app_assoc).
    rewrite after_wtime_app by exact Hpre. now apply until_wtime_app. }
  assert (Hwarm : until_wtime
            ([PosixMemalign PAGE_SIZE (CInt.size_mul msg_size 1)] ++ loop
             ++ omp_master tid [MPIBarrier] ++ [OmpBarrier] ++ [Wtime]
             ++ loop ++ [Wtime] ++ [Free]) =
            [PosixMemalign PAGE_SIZE (CInt.size_mul msg_size 1)] ++ loop
             ++ omp_master tid [MPIBarrier] ++ [OmpBarrier]).
  { replace ([PosixMemalign PAGE_SIZE (CInt.size_mul msg_size 1)] ++ loop
             ++ omp_master tid [MPIBarrier] ++ [OmpBarrier] ++ [Wtime]
             ++ loop ++ [Wtime] ++ [Free])
      with (([PosixMemalign PAGE_SIZE (CInt.size_mul msg_size 1)] ++ loop
             ++ omp_master tid [MPIBarrier] ++ [OmpBarrier])
            ++ Wtime :: (loop ++ Wtime :: [Free]))
      by (now rewrite <- !app_assoc).
    now apply until_wtime_app. }
  rewrite Htimed, Hwarm.
  destruct (put_loop_counts k 0 msg_size (target_disp tid msg_size)) as [Hputs Hflushes].
  fold loop in Hputs, Hflushes.
  split; [apply data_path_put_loop|].
  split; [rewrite Hputs; lia|].
  split; [rewrite Hflushes; lia|].
  rewrite !filter_app, !length_app, Hputs.
  assert (Hm0 : List.length (filter is_put (omp_master tid [MPIBarrier])) = 0%nat)
    by (unfold omp_master; destruct (tid =? 0); reflexivity).
  rewrite Hm0. cbn [filter is_put List.length]. lia.
Qed.

Lemma clock_brackets_the_counted_puts_witness :
  0 < 2 /\ 0 < 300 <= CInt.INT_MAX /\
  exists r,
    run_bench 0 2 still_clock (mkGlobals 2 300 8) = Some r /\
    List.length (run_threads r) = Z.to_nat 2.
Proof.
  assert (H1 : 0 < 2) by lia.
  assert (H2 : 0 < 300 <= CInt.INT_MAX) by (unfold CInt.INT_MAX; lia).
  destruct (clock_brackets_the_counted_puts 2 300 8 2 still_clock H1 H2)
    as (r & Hr & Hl & _).
  split; [exact H1|]. split; [exact H2|]. exists r. split; assumption.
Defined.

(** ** The window and the access epoch *)

Lemma thread_ids_range nthreads tid :
  0 < nthreads -> In tid (thread_ids nthreads) -> 0 <= tid < nthreads.
Proof.
  intros Ht. rewrite thread_ids_pos by assumption.
  intros H. apply in_map_iff in H. destruct H as (i & <- & Hi).
  apply in_seq in Hi. lia.
Qed.

Lemma size_mul_small a b :
  0 <= a -> 0 <= b -> a * b < 18446744073709551616 -> CInt.size_mul a b = a * b.
Proof.
  intros Ha Hb Hab. unfold CInt.size_mul, CInt.to_size_t.
  destruct (Z.eq_dec a 0) as [->|Ha0]; [reflexivity|].
  destruct (Z.eq_dec b 0) as [->|Hb0]; [now rewrite !Z.mul_0_r|].
  rewrite (Z.mod_small a), (Z.mod_small b) by nia.
  apply Z.mod_small. nia.
Qed.

Lemma existsb_false_Forall (p : event -> bool) tr :
  Forall (fun e => p e = false) tr -> forall e, In e tr -> p e = false.
Proof. intros H. now apply Forall_forall. Qed.

(** X11. While [num_threads * message_size] fits an [int] (all counts
    positive), the target allocates and registers exactly
    [num_threads * message_size] bytes, and every put of the run writes
    [message_size] bytes at [tid * message_size] for a thread [tid] of the
    team: inside the registered window. *)
Theorem puts_stay_inside_the_window (nthreads nmessages msg_size size : Z) (c : clock) :
  0 < nthreads -> 0 < msg_size -> nthreads * msg_size <= CInt.INT_MAX ->
  0 < nmessages <= CInt.INT_MAX ->
  (exists t,
     run_bench 1 size c (mkGlobals nthreads nmessages msg_size) = Some t /\
     run_prologue t =
       [Calloc nthreads; PosixMemalign PAGE_SIZE (nthreads * msg_size);
        WinCreate true (nthreads * msg_size)]) /\
  (exists s,
     run_bench 0 size c (mkGlobals nthreads nmessages msg_size) = Some s /\
     forall e, In e (run_events s) -> is_put e = true ->
       exists tid,
         0 <= tid < nthreads /\
         put_range e = Some (tid * msg_size, tid * msg_size + msg_size) /\
         0 <= tid * msg_size /\ tid * msg_size + msg_size <= nthreads * msg_size).
Proof.
  intros Ht Hs Hfit Hm. split.
  - eexists. split; [apply run_bench_target; assumption|].
    cbn [run_prologue]. unfold CInt.INT_MAX in Hfit.
    rewrite (size_mul_small msg_size 1), Z.mul_1_r by nia.
    rewrite (size_mul_small msg_size nthreads) by nia.
    now rewrite (Z.mul_comm msg_size).
  - eexists. split; [apply run_bench_sender; assumption|].
    intros e Hin Hput. unfold run_events in Hin.
    cbn [run_prologue run_threads run_epilogue] in Hin.
    apply in_app_or in Hin. destruct Hin as [Hin | Hin].
    { cbn in Hin. destruct Hin as [<-|[<-|[<-|[]]]]; discriminate Hput. }
    apply in_app_or in Hin. destruct Hin as [Hin | Hin].
    + apply in_concat in Hin. destruct Hin as (t & Ht' & He).
      apply in_map_iff in Ht'. destruct Ht' as (tid & <- & Htid).
      apply thread_ids_range in Htid; [|assumption].
      rewrite (thread_puts _ _ _ _ He Hput). cbn [message_size put_range].
      exists tid. split; [exact Htid|].
      unfold target_disp, CInt.mul.
      rewrite wrap_in_range by (unfold CInt.in_range, CInt.INT_MIN, CInt.INT_MAX in *; nia).
      split; [reflexivity|]. nia.
    + exfalso.
      assert (Hno : Forall (fun e => is_put e = false)
                ([WinUnlockAll; WinFree] ++ [MPIBarrier]
                 ++ snd (aggregate
                           (mkGlobals nthreads (64 * (nmessages / nthreads / 64)) msg_size)
                           (mkMemory (map (elapsed c) (thread_ids nthreads))
                                     0%float 0%float))
                 ++ [MPIBarrier; Free])).
      { quiet. apply aggregate_output; reflexivity. }
      rewrite (existsb_false_Forall is_put _ Hno e Hin) in Hput. discriminate Hput.
Qed.

Lemma puts_stay_inside_the_window_witness :
  0 < 4 /\ 0 < 1024 /\ 4 * 1024 <= CInt.INT_MAX /\ 0 < 640000 <= CInt.INT_MAX /\
  exists t,
    run_bench 1 2 still_clock (mkGlobals 4 640000 1024) = Some t /\
    run_prologue t =
      [Calloc 4; PosixMemalign PAGE_SIZE (4 * 1024); WinCreate true (4 * 1024)].
Proof.
  assert (H1 : 0 < 4) by lia.
  assert (H2 : 0 < 1024) by lia.
  assert (H3 : 4 * 1024 <= CInt.INT_MAX) by (unfold CInt.INT_MAX; lia).
  assert (H4 : 0 < 640000 <= CInt.INT_MAX) by (unfold CInt.INT_MAX; lia).
  destruct (puts_stay_inside_the_window 4 640000 1024 2 still_clock H1 H2 H3 H4)
    as (Htarget & _).
  split; [exact H1|]. split; [exact H2|]. split; [exact H3|]. split; [exact H4|].
  exact Htarget.
Defined.

(** X12. A putter has a run only with a positive thread count, and in
    that run, the message size not being negative, every put and flush
    lies between the one [MPI_Win_lock_all] and the one
    [MPI_Win_unlock_all]: the run is the allocation of the
    sample array, the creation of an empty window and the lock, then the
    threads, which neither lock nor unlock, then the unlock and the
    release of the window, then a rest without puts or flushes. *)
Theorem puts_only_inside_the_epoch (rank size : Z) (c : clock) (g : globals) (r : bench_run) :
  is_putter rank = true ->
  0 <= message_size g ->
  run_bench rank size c g = Some r ->
  0 < num_threads g /\
  exists rest,
    run_events r =
      [Calloc (num_threads g); WinCreate false 0; WinLockAll]
      ++ List.concat (run_threads r)
      ++ [WinUnlockAll; WinFree] ++ rest /\
    existsb is_lock (List.concat (run_threads r)) = false /\
    existsb is_lock rest = false /\
    data_path rest = [].
Proof.
  intros Hrank _ Hrun.
  destruct (run_bench_shape _ _ _ _ _ Hrun) as (n & reported & Hn & Hrep & ->).
  cbv zeta in Hrep. rewrite Hrank in Hrep. destruct Hrep as (samples & Hsamples & ->).
  split.
  { destruct (Z.lt_trichotomy (num_threads g) 0) as [Hneg|[H0|Hpos]]; [| |exact Hpos].
    - rewrite measure_null in Hsamples by assumption. discriminate Hsamples.
    - rewrite normalize_defined, H0 in Hn. discriminate Hn. }
  cbv zeta. rewrite Hrank. unfold run_events.
  cbn [run_prologue run_threads run_epilogue fst snd].
  set (g' := mkGlobals (num_threads g) n (message_size g)).
  set (report := snd (aggregate g' _)).
  exists ([MPIBarrier] ++ report ++ [MPIBarrier; Free]).
  assert (Hreport : forall p : event -> bool,
            (forall s, p (PrintStr s) = false) -> (forall i x y, p (PrintRow i x y) = false) ->
            (forall z, p (PrintInt z) = false) -> (forall f, p (PrintFloat f) = false) ->
            Forall (fun e => p e = false) report)
    by (intros p H1 H2 H3 H4; apply aggregate_output; assumption).
  split; [now rewrite <- !app_assoc|]. split; [|split].
  - apply Forall_existsb_false, Forall_concat, Forall_map, Forall_forall.
    intros tid _. rewrite thread_events_unfold. rewrite Hrank.
    apply Forall_app. split; [destruct (negb _); quiet|]. quiet.
  - apply Forall_existsb_false. quiet. apply Hreport; reflexivity.
  - assert (Hd : forall tr, Forall (fun e => is_put e || is_flush e = false) tr ->
                            data_path tr = []).
    { induction 1 as [|e tr He _ IH]; [reflexivity|].
      unfold data_path in *. cbn [filter]. now rewrite He. }
    apply Hd. quiet. apply (Hreport (fun e => is_put e || is_flush e)); reflexivity.
Qed.

Lemma puts_only_inside_the_epoch_witness :
  is_putter 0 = true /\
  0 <= message_size (mkGlobals 2 128 8) /\
  option_map (fun r => existsb is_lock (List.concat (run_threads r)))
    (run_bench 0 2 still_clock (mkGlobals 2 128 8)) = Some false.
Proof.
  assert (H0 : is_putter 0 = true) by reflexivity.
  assert (H1 : 0 <= message_size (mkGlobals 2 128 8)) by (cbn; lia).
  split; [exact H0|]. split; [exact H1|].
  destruct (run_bench 0 2 still_clock (mkGlobals 2 128 8)) as [r|] eqn:Hr;
    [|vm_compute in Hr; discriminate Hr].
  cbn [option_map]. f_equal.
  destruct (puts_only_inside_the_epoch 0 2 still_clock (mkGlobals 2 128 8) r H0 H1 Hr)
    as (_ & rest & _ & Hl & _).
  exact Hl.
Defined.

Lemma slots_disjoint_in_range_witness :
  0 < 1024 /\ 0 <= 0 /\ 0 <= 3 /\ 0 <> 3 /\
  0 * 1024 <= CInt.INT_MAX /\ 3 * 1024 <= CInt.INT_MAX /\
  disjoint (spec_slot 1024 0) (spec_slot 1024 3).
Proof.
  assert (H1 : 0 < 1024) by lia.
  assert (H2 : 0 <= 0) by lia.
  assert (H3 : 0 <= 3) by lia.
  assert (H4 : 0 <> 3) by lia.
  assert (H5 : 0 * 1024 <= CInt.INT_MAX) by (unfold CInt.INT_MAX; lia).
  assert (H6 : 3 * 1024 <= CInt.INT_MAX) by (unfold CInt.INT_MAX; lia).
  pose proof (slots_disjoint_in_range 1024 0 3 H1 H2 H3 H4 H5 H6) as (Hd & _).
  repeat split; try lia; try exact H5; try exact H6; exact Hd.
Defined.

(** * The computed rate and bandwidth as binary64 numbers *)

(** ** Powers of two, digits and shifts *)

Lemma bpow_pos e : (0 < bpow e)%R.
Proof. unfold bpow. apply powerRZ_lt. lra. Qed.

Lemma bpow_add a b : bpow (a + b) = (bpow a * bpow b)%R.
Proof. unfold bpow. apply powerRZ_add. lra. Qed.

Lemma bpow_IZR k : 0 <= k -> bpow k = IZR (2 ^ k).
Proof.
  intros Hk. unfold bpow. destruct k as [|p|p]; [reflexivity| |lia].
  cbn [powerRZ]. rewrite <- (positive_nat_Z p), <- pow_IZR. reflexivity.
Qed.

Lemma bpow_ge_1 k : 0 <= k -> (1 <= bpow k)%R.
Proof.
  intros Hk. rewrite bpow_IZR by assumption. apply IZR_le.
  pose proof (Z.pow_pos_nonneg 2 k ltac:(lia) Hk). lia.
Qed.

Lemma bpow_le a b : a <= b -> (bpow a <= bpow b)%R.
Proof.
  intros H. replace b with (a + (b - a)) by lia. rewrite bpow_add.
  pose proof (bpow_pos a). pose proof (bpow_ge_1 (b - a) ltac:(lia)). nra.
Qed.

Lemma bpow_1 : bpow 1 = 2%R.
Proof. rewrite bpow_IZR by lia. reflexivity. Qed.

Lemma bpow_0 : bpow 0 = 1%R.
Proof. rewrite bpow_IZR by lia. reflexivity. Qed.

Lemma bpow_lt a b : a < b -> (bpow a < bpow b)%R.
Proof.
  intros H. replace b with (a + 1 + (b - a - 1)) by lia. rewrite !bpow_add.
  pose proof (bpow_pos a). pose proof (bpow_ge_1 (b - a - 1) ltac:(lia)).
  rewrite bpow_1. nra.
Qed.

Lemma digits2_pos_bounds p :
  2 ^ (Zpos (digits2_pos p) - 1) <= Zpos p < 2 ^ Zpos (digits2_pos p).
Proof.
  induction p as [p IH|p IH|]; cbn [digits2_pos].
  - rewrite Pos2Z.inj_succ.
    replace (Z.succ (Zpos (digits2_pos p)) - 1) with (Z.succ (Zpos (digits2_pos p) - 1)) by lia.
    rewrite !Z.pow_succ_r by lia. lia.
  - rewrite Pos2Z.inj_succ.
    replace (Z.succ (Zpos (digits2_pos p)) - 1) with (Z.succ (Zpos (digits2_pos p) - 1)) by lia.
    rewrite !Z.pow_succ_r by lia. lia.
  - cbn. lia.
Qed.

Lemma Zdigits2_bounds m : 0 < m -> 2 ^ (Zdigits2 m - 1) <= m < 2 ^ Zdigits2 m.
Proof. destruct m; try lia. intros _. apply digits2_pos_bounds. Qed.

Lemma Zdigits2_nonneg m : 0 <= Zdigits2 m.
Proof. destruct m; cbn; lia. Qed.

Lemma Zdigits2_pos m : 0 < m -> 0 < Zdigits2 m.
Proof. destruct m; cbn; lia. Qed.

(* digits is determined by bounds *)

Lemma Zdigits2_unique m d : 0 < m -> 2 ^ (d - 1) <= m < 2 ^ d -> 0 < d -> Zdigits2 m = d.
Proof.
  intros Hm Hb Hd. pose proof (Zdigits2_bounds m Hm) as Hb'. pose proof (Zdigits2_pos m Hm).
  destruct (Z.lt_trichotomy (Zdigits2 m) d) as [H1|[H1|H1]]; [|assumption|].
  - assert (2 ^ Zdigits2 m <= 2 ^ (d - 1)) by (apply Z.pow_le_mono_r; lia). lia.
  - assert (2 ^ d <= 2 ^ (Zdigits2 m - 1)) by (apply Z.pow_le_mono_r; lia). lia.
Qed.

Lemma IZR_xO p : IZR (Zpos p~0) = (2 * IZR (Zpos p))%R.
Proof. rewrite Pos2Z.inj_xO, mult_IZR. reflexivity. Qed.

Lemma IZR_xI p : IZR (Zpos p~1) = (2 * IZR (Zpos p) + 1)%R.
Proof. rewrite Pos2Z.inj_xI, plus_IZR, mult_IZR. reflexivity. Qed.

Lemma shr_1_located u mrs : located u mrs -> located (u / 2) (shr_1 mrs).
Proof.
  destruct mrs as [m r s]. unfold located. cbn [shr_m shr_r shr_s].
  intros [Hm Hu].
  destruct m as [|p|p]; [| |lia].
  - destruct r, s; cbn [shr_1 shr_m shr_r shr_s orb]; split; try lia; lra.
  - destruct p as [p|p|]; [rewrite (IZR_xI p) in Hu|rewrite (IZR_xO p) in Hu|];
      destruct r, s; cbn [shr_1 shr_m shr_r shr_s orb]; split; try lia; lra.
Qed.

Lemma iter_shr_1_located p : forall u mrs,
  located u mrs -> located (u * bpow (- Zpos p)) (SpecFloat.iter_pos shr_1 p mrs).
Proof.
  assert (Hhalf : bpow (-1) = (1 / 2)%R).
  { assert (H : (bpow (-1) * bpow 1 = 1)%R) by (rewrite <- bpow_add; apply bpow_0).
    rewrite bpow_1 in H. lra. }
  induction p as [p IH|p IH|]; intros u mrs H; cbn [SpecFloat.iter_pos].
  - replace (- Zpos p~1) with (-1 + (- Zpos p + - Zpos p)) by lia.
    rewrite !bpow_add, Hhalf.
    replace (u * (1 / 2 * (bpow (- Zpos p) * bpow (- Zpos p))))%R
      with (u / 2 * bpow (- Zpos p) * bpow (- Zpos p))%R by lra.
    apply IH, IH, shr_1_located, H.
  - replace (- Zpos p~0) with (- Zpos p + - Zpos p) by lia.
    rewrite !bpow_add, <- Rmult_assoc.
    apply IH, IH, H.
  - cbn [Z.opp]. rewrite Hhalf. replace (u * (1 / 2))%R with (u / 2)%R by lra.
    apply shr_1_located, H.
Qed.

Lemma shr_located u mrs e n :
  located u mrs -> 0 <= n ->
  located (u * bpow (- n)) (fst (shr mrs e n)) /\ snd (shr mrs e n) = e + n.
Proof.
  intros H Hn. destruct n as [|p|p]; [| |lia]; cbn [shr fst snd].
  - cbn [Z.opp]. rewrite bpow_0, Rmult_1_r. split; [exact H|lia].
  - split; [apply iter_shr_1_located, H|reflexivity].
Qed.

Lemma shr_unchanged mrs e n : n <= 0 -> shr mrs e n = (mrs, e).
Proof. destruct n; try reflexivity; lia. Qed.

Lemma round_nearest_even_located u mrs :
  located u mrs ->
  let m2 := round_nearest_even (shr_m mrs) (loc_of_shr_record mrs) in
  0 <= m2 /\ (Rabs (u - IZR m2) <= 1 / 2)%R.
Proof.
  destruct mrs as [m r s]. unfold located. cbn [shr_m shr_r shr_s].
  intros [Hm Hu].
  destruct r, s; cbn [loc_of_shr_record round_nearest_even].
  - split; [lia|]. rewrite plus_IZR. apply Rabs_le. lra.
  - destruct (Z.even m); (split; [lia|]); rewrite ?plus_IZR; apply Rabs_le; lra.
  - split; [lia|]. apply Rabs_le. lra.
  - split; [lia|]. apply Rabs_le. lra.
Qed.

Lemma Rabs_le_inv x a : (Rabs x <= a -> - a <= x <= a)%R.
Proof. unfold Rabs. destruct (Rcase_abs x); lra. Qed.

Lemma fexp_eq x : fexp 53 1024 x = Z.max (x - 53) (-1074).
Proof. reflexivity. Qed.

Lemma located_bounds u mrs :
  located u mrs -> (IZR (shr_m mrs) <= u < IZR (shr_m mrs) + 1)%R.
Proof.
  destruct mrs as [m r s]. unfold located. cbn [shr_m shr_r shr_s].
  intros [_ H]. destruct r, s; lra.
Qed.

Lemma shr_record_of_loc_m q l : shr_m (shr_record_of_loc q l) = q.
Proof. destruct l as [|[]]; reflexivity. Qed.

Lemma digits_upper q : 0 <= q -> (IZR q + 1 <= bpow (Zdigits2 q))%R.
Proof.
  intros Hq. rewrite bpow_IZR by apply Zdigits2_nonneg.
  rewrite <- plus_IZR. apply IZR_le.
  destruct (Z.eq_dec q 0) as [->|Hne]; [cbn; lia|].
  pose proof (Zdigits2_bounds q ltac:(lia)). lia.
Qed.

Lemma digits_lower q : 0 < q -> (bpow (Zdigits2 q - 1) <= IZR q)%R.
Proof.
  intros Hq. pose proof (Zdigits2_pos q Hq).
  rewrite bpow_IZR by lia. apply IZR_le.
  pose proof (Zdigits2_bounds q Hq). lia.
Qed.

Lemma Zdigits2_le q k : 0 < q -> q < 2 ^ k -> 0 <= k -> Zdigits2 q <= k.
Proof.
  intros Hq Hk Hk0. pose proof (Zdigits2_bounds q Hq) as Hb.
  destruct (Z_le_gt_dec (Zdigits2 q) k) as [|Hgt]; [assumption|].
  assert (2 ^ k <= 2 ^ (Zdigits2 q - 1)) by (apply Z.pow_le_mono_r; lia). lia.
Qed.

Lemma round_aux_rounds q e l u0 :
  located u0 (shr_record_of_loc q l) ->
  e <= fexp 53 1024 (Zdigits2 q + e) ->
  Rounds (u0 * bpow e) (binary_round_aux 53 1024 false q e l).
Proof.
  intros Hloc He.
  assert (Hq : 0 <= q) by (destruct Hloc as [H _]; now rewrite shr_record_of_loc_m in H).
  pose proof (located_bounds _ _ Hloc) as Hu0. rewrite shr_record_of_loc_m in Hu0.
  unfold binary_round_aux, shr_fexp.
  set (e1 := fexp 53 1024 (Zdigits2 q + e)) in *.
  assert (He1 : e1 = Z.max (Zdigits2 q + e - 53) (-1074)) by apply fexp_eq.
  destruct (shr_located u0 (shr_record_of_loc q l) e (e1 - e) Hloc ltac:(lia)) as [Hl1 Hs1].
  destruct (shr (shr_record_of_loc q l) e (e1 - e)) as [mrs' e1'] eqn:E1.
  cbn [fst snd] in Hl1, Hs1. replace e1' with e1 in * by lia. clear Hs1.
  set (u := (u0 * bpow (- (e1 - e)))%R) in *.
  assert (Hv : (u0 * bpow e = u * bpow e1)%R).
  { unfold u. rewrite Rmult_assoc, <- bpow_add. f_equal. f_equal. lia. }
  pose proof (round_nearest_even_located u mrs' Hl1) as [Hm2 Hnear].
  set (m2 := round_nearest_even (shr_m mrs') (loc_of_shr_record mrs')) in *.
  pose proof (bpow_pos e) as Hpe. pose proof (bpow_pos e1) as Hpe1.
  pose proof (digits_upper q Hq) as Hup.
  assert (Hvup : (u0 * bpow e < bpow (e1 + 53))%R).
  { apply Rlt_le_trans with (bpow (Zdigits2 q) * bpow e)%R; [nra|].
    rewrite <- bpow_add. apply bpow_le. lia. }
  assert (Hvlow : -1074 < e1 -> (bpow (e1 + 52) <= u0 * bpow e)%R).
  { intros Hn. assert (Hd : 53 <= Zdigits2 q) by lia.
    assert (Hq0 : 0 < q) by (destruct q; cbn in Hd; lia).
    pose proof (digits_lower q Hq0) as Hlow.
    replace (e1 + 52) with (Zdigits2 q - 1 + e) by lia. rewrite bpow_add. nra. }
  assert (Hu53 : (u < bpow 53)%R).
  { rewrite Hv in Hvup. rewrite (Z.add_comm e1), bpow_add in Hvup. nra. }
  assert (Hm2up : m2 <= 9007199254740992).
  { apply Rabs_le_inv in Hnear. rewrite (bpow_IZR 53) in Hu53 by lia.
    change (2 ^ 53) with 9007199254740992 in Hu53.
    assert (H : (IZR m2 < IZR 9007199254740992 + 1)%R) by lra.
    rewrite <- plus_IZR in H. apply lt_IZR in H. lia. }
  exists e1, m2. repeat split; try assumption; try lia.
  - rewrite Hv. replace (u * bpow e1 - IZR m2 * bpow e1)%R with ((u - IZR m2) * bpow e1)%R by lra.
    rewrite Rabs_mult, (Rabs_pos_eq (bpow e1)) by lra. nra.
  - (* the second shift *)
    unfold finalize.
    destruct m2 as [|p|p] eqn:Em2; [| |lia].
    + rewrite shr_unchanged by (cbn [shr_record_of_loc Zdigits2]; rewrite fexp_eq; lia).
      reflexivity.
    + destruct (Z.eqb_spec (Zpos p) 9007199254740992) as [Hmax|Hnmax].
      * injection Hmax as ->. vm_compute Zdigits2. rewrite fexp_eq.
        replace (Z.max (54 + e1 - 53) (-1074) - e1) with 1 by lia.
        cbn [shr shr_record_of_loc SpecFloat.iter_pos shr_1 shr_m].
        reflexivity.
      * assert (Hd : Zdigits2 (Zpos p) <= 53).
        { apply Zdigits2_le; [lia| |lia]. change (2 ^ 53) with 9007199254740992. lia. }
        rewrite shr_unchanged by (rewrite fexp_eq; lia).
        cbn [shr_record_of_loc shr_m]. reflexivity.
Qed.

Lemma SFleb_finite p e p' e' :
  e < e' \/ (e = e' /\ Zpos p <= Zpos p') ->
  SFleb (S754_finite false p e) (S754_finite false p' e') = true.
Proof.
  intros H. unfold SFleb, SFcompare.
  destruct (Z.compare_spec e e') as [Heq|Hlt|Hgt]; [|reflexivity|lia].
  destruct H as [H|[_ H]]; [lia|].
  rewrite Pos.compare_cont_spec. cbn [Pos.switch_Eq].
  rewrite Pos2Z.inj_compare.
  destruct (Z.compare_spec (Zpos p) (Zpos p')); [reflexivity|reflexivity|lia].
Qed.

Lemma finalize_class m2 e1 :
  0 <= m2 ->
  finalize m2 e1 = S754_zero false \/
  finalize m2 e1 = S754_infinity false \/
  exists p e, finalize m2 e1 = S754_finite false p e.
Proof.
  intros Hm. unfold finalize. destruct m2 as [|p|p]; [now left| |lia].
  destruct (Zpos p =? 9007199254740992).
  - destruct (e1 + 1 <=? 971); [right; right; eauto|right; now left].
  - destruct (e1 <=? 971); [right; right; eauto|right; now left].
Qed.

Lemma SFleb_zero_finalize m2 e1 :
  0 <= m2 -> SFleb (S754_zero false) (finalize m2 e1) = true.
Proof.
  intros Hm. destruct (finalize_class m2 e1 Hm) as [->|[->|(p & e & ->)]]; reflexivity.
Qed.

Lemma SFleb_finalize_inf m2 e1 :
  0 <= m2 -> SFleb (finalize m2 e1) (S754_infinity false) = true.
Proof.
  intros Hm. destruct (finalize_class m2 e1 Hm) as [->|[->|(p & e & ->)]]; reflexivity.
Qed.

Lemma SFleb_finalize_refl m2 e1 :
  0 <= m2 -> SFleb (finalize m2 e1) (finalize m2 e1) = true.
Proof.
  intros Hm. destruct (finalize_class m2 e1 Hm) as [->|[->|(p & e & ->)]];
    try reflexivity.
  apply SFleb_finite. right. split; [reflexivity|lia].
Qed.

Lemma finalize_mono m2 e1 m2' e1' :
  0 <= m2 <= 9007199254740992 ->
  0 <= m2' <= 9007199254740992 ->
  (e1 = e1' /\ m2 <= m2') \/ (e1 < e1' /\ 4503599627370496 <= m2') ->
  SFleb (finalize m2 e1) (finalize m2' e1') = true.
Proof.
  intros Hm Hm' Hord.
  destruct m2 as [|p|p]; [apply SFleb_zero_finalize; lia| |lia].
  destruct m2' as [|p'|p']; [lia| |lia].
  unfold finalize.
  destruct (Z.eqb_spec (Zpos p) 9007199254740992) as [Hp|Hp];
    destruct (Z.eqb_spec (Zpos p') 9007199254740992) as [Hp'|Hp'];
    repeat match goal with
           | |- context [?a <=? ?b] => destruct (Z.leb_spec a b)
           end;
    try reflexivity; try (exfalso; lia); apply SFleb_finite; lia.
Qed.

Lemma bpow_53 e : bpow (e + 53) = (bpow e * 9007199254740992)%R.
Proof. rewrite bpow_add, (bpow_IZR 53) by lia. reflexivity. Qed.

Lemma bpow_52 e : bpow (e + 52) = (bpow e * 4503599627370496)%R.
Proof. rewrite bpow_add, (bpow_IZR 52) by lia. reflexivity. Qed.

Lemma IZR_lt_succ a b : (IZR a < IZR b + 1)%R -> a <= b.
Proof. intros H. rewrite <- plus_IZR in H. apply lt_IZR in H. lia. Qed.

Lemma Rounds_mantissa v e1 m2 :
  (v < bpow (e1 + 53))%R ->
  (Rabs (v - IZR m2 * bpow e1) <= bpow e1 / 2)%R ->
  m2 <= 9007199254740992.
Proof.
  intros Hup Hnear. apply Rabs_le_inv in Hnear. rewrite bpow_53 in Hup.
  pose proof (bpow_pos e1) as Hb.
  apply IZR_lt_succ. apply (Rmult_lt_reg_r (bpow e1)); [exact Hb|]. nra.
Qed.

Lemma Rounds_mono v f v' f' :
  Rounds v f -> Rounds v' f' -> (v < v')%R -> SFleb f f' = true.
Proof.
  intros (e1 & m2 & He1 & Hm2 & Hup & Hlow & Hnear & ->)
         (e1' & m2' & He1' & Hm2' & Hup' & Hlow' & Hnear' & ->) Hlt.
  pose proof (Rounds_mantissa _ _ _ Hup Hnear) as Hmax.
  pose proof (Rounds_mantissa _ _ _ Hup' Hnear') as Hmax'.
  pose proof (bpow_pos e1) as Hb. pose proof (bpow_pos e1') as Hb'.
  apply Rabs_le_inv in Hnear. apply Rabs_le_inv in Hnear'.
  assert (Hee : e1 <= e1').
  { destruct (Z_le_gt_dec e1 e1') as [|Hgt]; [assumption|exfalso].
    pose proof (Hlow ltac:(lia)) as Hl.
    pose proof (bpow_le (e1' + 53) (e1 + 52) ltac:(lia)). lra. }
  apply finalize_mono; [lia|lia|].
  destruct (Z.eq_dec e1 e1') as [<-|Hne].
  - left. split; [reflexivity|].
    apply IZR_lt_succ. apply (Rmult_lt_reg_r (bpow e1)); [exact Hb|]. nra.
  - right. split; [lia|].
    pose proof (Hlow' ltac:(lia)) as Hl'. rewrite bpow_52 in Hl'.
    assert (H : (IZR 4503599627370496 < IZR m2' + 1)%R).
    { apply (Rmult_lt_reg_r (bpow e1')); [exact Hb'|]. nra. }
    now apply IZR_lt_succ.
Qed.

Lemma F2R_pos m e : (0 < F2R m e)%R.
Proof.
  unfold F2R. apply Rmult_lt_0_compat; [|apply bpow_pos].
  apply IZR_lt. lia.
Qed.

Lemma new_location_located q d r :
  0 <= q -> 0 <= r < d ->
  located (IZR q + IZR r / IZR d) (shr_record_of_loc q (new_location d r)).
Proof.
  intros Hq Hr.
  assert (Hd : (0 < IZR d)%R) by (apply IZR_lt; lia).
  assert (Hr0 : (0 <= IZR r)%R) by (apply IZR_le; lia).
  assert (Hrd : (IZR r < IZR d)%R) by (apply IZR_lt; lia).
  assert (Hfrac : forall c,
            Z.compare (2 * r) d = c -> r <> 0 ->
            located (IZR q + IZR r / IZR d) (shr_record_of_loc q (loc_Inexact c))).
  { intros c Hc Hr1. unfold located.
    assert (Hrpos : (0 < IZR r)%R) by (apply IZR_lt; lia).
    assert (H0 : (0 < IZR r / IZR d)%R) by (apply Rdiv_lt_0_compat; assumption).
    assert (H1 : (IZR r / IZR d < 1)%R).
    { apply (Rmult_lt_reg_r (IZR d)); [exact Hd|]. unfold Rdiv.
      rewrite Rmult_assoc, Rinv_l by lra. lra. }
    destruct (Z.compare_spec (2 * r) d) as [He|Hl|Hg]; subst c;
      cbn [shr_record_of_loc shr_m shr_r shr_s]; (split; [exact Hq|]).
    - assert (IZR d = 2 * IZR r)%R by (rewrite <- He, mult_IZR; reflexivity).
      assert (IZR r / IZR d = 1 / 2)%R.
      { apply (Rmult_eq_reg_r (IZR d)); [|lra]. unfold Rdiv at 1.
        rewrite Rmult_assoc, Rinv_l by lra. lra. }
      lra.
    - assert (2 * IZR r < IZR d)%R by (rewrite <- mult_IZR; apply IZR_lt; lia).
      assert (IZR r / IZR d < 1 / 2)%R.
      { apply (Rmult_lt_reg_r (IZR d)); [exact Hd|]. unfold Rdiv.
        rewrite Rmult_assoc, Rinv_l by lra. lra. }
      lra.
    - assert (IZR d < 2 * IZR r)%R by (rewrite <- mult_IZR; apply IZR_lt; lia).
      assert (1 / 2 < IZR r / IZR d)%R.
      { apply (Rmult_lt_reg_r (IZR d)); [exact Hd|]. unfold Rdiv at 2.
        rewrite Rmult_assoc, Rinv_l by lra. lra. }
      lra. }
  unfold new_location.
  destruct (Z.even d) eqn:Heven; unfold new_location_even, new_location_odd;
    destruct (Z.eqb_spec r 0) as [Er|Er].
  - subst r. unfold located. cbn [shr_record_of_loc shr_m shr_r shr_s].
    split; [exact Hq|]. unfold Rdiv. rewrite Rmult_0_l. lra.
  - now apply Hfrac.
  - subst r. unfold located. cbn [shr_record_of_loc shr_m shr_r shr_s].
    split; [exact Hq|]. unfold Rdiv. rewrite Rmult_0_l. lra.
  - destruct (Z.compare_spec (2 * r + 1) d) as [He|Hl|Hg].
    + apply Hfrac; [|exact Er]. apply Z.compare_lt_iff. lia.
    + apply Hfrac; [|exact Er]. apply Z.compare_lt_iff. lia.
    + apply Hfrac; [|exact Er]. apply Z.compare_gt_iff.
      assert (2 * r <> d).
      { intros H2. rewrite <- H2, Z.even_mul in Heven. discriminate Heven. }
      lia.
Qed.

Lemma Zdigits2_ge q k : 2 ^ k <= q -> 0 <= k -> k + 1 <= Zdigits2 q.
Proof.
  intros Hq Hk.
  assert (Hq0 : 0 < q) by (pose proof (Z.pow_pos_nonneg 2 k ltac:(lia) Hk); lia).
  pose proof (Zdigits2_bounds q Hq0) as Hb. pose proof (Zdigits2_pos q Hq0).
  destruct (Z_lt_le_dec k (Zdigits2 q)) as [|Hle]; [lia|].
  assert (2 ^ Zdigits2 q <= 2 ^ k) by (apply Z.pow_le_mono_r; lia). lia.
Qed.

Lemma SFdiv_rounds mx ex my ey :
  Rounds (F2R mx ex / F2R my ey)
         (SFdiv 53 1024 (S754_finite false mx ex) (S754_finite false my ey)).
Proof.
  unfold SFdiv, SFdiv_core_binary. cbn [xorb].
  set (d1 := Zdigits2 (Zpos mx)). set (d2 := Zdigits2 (Zpos my)).
  set (e' := Z.min (fexp 53 1024 (d1 + ex - (d2 + ey))) (ex - ey)).
  set (s := ex - ey - e').
  assert (Hs : 0 <= s) by (unfold s, e'; lia).
  set (m' := match s with Zpos _ => Z.shiftl (Zpos mx) s | Z0 => Zpos mx | Zneg _ => 0 end).
  assert (Hm' : m' = Zpos mx * 2 ^ s).
  { unfold m'. destruct s as [|p|p]; [cbn; lia| |lia].
    apply Z.shiftl_mul_pow2. lia. }
  pose proof (Z_div_mod m' (Zpos my) ltac:(lia)) as Hdiv.
  destruct (Z.div_eucl m' (Zpos my)) as [q r]. destruct Hdiv as [Hqr Hr].
  pose proof (Z.pow_pos_nonneg 2 s ltac:(lia) Hs) as Hpow.
  assert (Hq : 0 <= q) by nia.
  pose proof (new_location_located q (Zpos my) r Hq Hr) as Hloc.
  assert (Hv : (F2R mx ex / F2R my ey =
                (IZR q + IZR r / IZR (Zpos my)) * bpow e')%R).
  { unfold F2R.
    assert (Hmy : (0 < IZR (Zpos my))%R) by (apply IZR_lt; lia).
    pose proof (bpow_pos ey). pose proof (bpow_pos e').
    replace ex with (s + e' + ey) by (unfold s; lia).
    rewrite !bpow_add, (bpow_IZR s) by assumption.
    assert (Hm'R : (IZR (Zpos mx) * IZR (2 ^ s) = IZR (Zpos my) * IZR q + IZR r)%R).
    { rewrite <- !mult_IZR, <- plus_IZR. f_equal. lia. }
    field_simplify_eq; [|lra]. nra. }
  rewrite Hv. apply round_aux_rounds; [exact Hloc|].
  rewrite fexp_eq.
  destruct (Z_le_gt_dec e' (-1074)) as [Hsmall|Hbig]; [lia|].
  assert (He' : e' <= d1 + ex - (d2 + ey) - 53).
  { unfold e' in *. rewrite fexp_eq in *. lia. }
  assert (H52 : 2 ^ 52 <= q).
  { pose proof (Zdigits2_bounds (Zpos mx) ltac:(lia)) as H1.
    pose proof (Zdigits2_bounds (Zpos my) ltac:(lia)) as H2.
    pose proof (Zdigits2_pos (Zpos mx) ltac:(lia)).
    pose proof (Zdigits2_pos (Zpos my) ltac:(lia)).
    fold d1 in H1, H. fold d2 in H2, H0.
    assert (Hbig' : 2 ^ (52 + d2) <= 2 ^ (d1 - 1 + s))
      by (apply Z.pow_le_mono_r; unfold s; lia).
    rewrite !Z.pow_add_r in Hbig' by lia.
    assert (Hlt : 2 ^ 52 * Zpos my < Zpos my * (q + 1)).
    { pose proof (Z.pow_pos_nonneg 2 52 ltac:(lia) ltac:(lia)).
      pose proof (Z.pow_pos_nonneg 2 (d1 - 1) ltac:(lia) ltac:(lia)). nia. }
    nia. }
  pose proof (Zdigits2_ge q 52 H52 ltac:(lia)). lia.
Qed.

Lemma canonical_facts m e :
  valid_binary (S754_finite false m e) = true ->
  -1074 <= e /\ Zpos m < 2 ^ 53 /\ (-1074 < e -> 2 ^ 52 <= Zpos m).
Proof.
  cbn [SpecFloat.valid_binary]. unfold bounded, canonical_mantissa.
  intros H. apply andb_prop in H. destruct H as [Hc _].
  apply Z.eqb_eq in Hc. rewrite fexp_eq in Hc.
  pose proof (digits2_pos_bounds m) as Hb.
  set (d := Zpos (digits2_pos m)) in *.
  assert (Hd : 0 < d) by (unfold d; lia).
  split; [lia|]. split.
  - assert (2 ^ d <= 2 ^ 53) by (apply Z.pow_le_mono_r; lia). lia.
  - intros He. assert (d = 53) by lia. replace (52) with (d - 1) by lia. lia.
Qed.

Lemma SFltb_F2R ma ea mb eb :
  valid_binary (S754_finite false ma ea) = true ->
  valid_binary (S754_finite false mb eb) = true ->
  SFltb (S754_finite false ma ea) (S754_finite false mb eb) = true ->
  (F2R ma ea < F2R mb eb)%R.
Proof.
  intros Va Vb. destruct (canonical_facts _ _ Va) as (Ha1 & Ha2 & Ha3).
  destruct (canonical_facts _ _ Vb) as (Hb1 & Hb2 & Hb3).
  unfold SFltb, SFcompare, F2R.
  destruct (Z.compare_spec ea eb) as [Heq|Hlt|Hgt]; [| |discriminate].
  - rewrite Pos.compare_cont_spec. cbn [Pos.switch_Eq]. rewrite Pos2Z.inj_compare.
    destruct (Z.compare_spec (Zpos ma) (Zpos mb)) as [|Hm|]; try discriminate.
    intros _. subst eb. pose proof (bpow_pos ea).
    apply Rmult_lt_compat_r; [assumption|]. now apply IZR_lt.
  - intros _. pose proof (Hb3 ltac:(lia)) as Hb4.
    change (2 ^ 53) with 9007199254740992 in Ha2.
    change (2 ^ 52) with 4503599627370496 in Hb4.
    apply IZR_lt in Ha2. apply IZR_le in Hb4.
    pose proof (bpow_pos ea). pose proof (bpow_pos eb).
    pose proof (bpow_le (ea + 53) (eb + 52) ltac:(lia)) as Hle.
    rewrite bpow_53, bpow_52 in Hle. nra.
Qed.

Lemma SFcompare_Eq_finite ma ea mb eb :
  SFcompare (S754_finite false ma ea) (S754_finite false mb eb) = Some Eq ->
  ma = mb /\ ea = eb.
Proof.
  unfold SFcompare.
  destruct (Z.compare_spec ea eb) as [Heq|Hlt|Hgt]; try discriminate.
  rewrite Pos.compare_cont_spec. cbn [Pos.switch_Eq].
  destruct (Pos.compare_spec ma mb); try discriminate. intros _. now split.
Qed.

Lemma bpow_lt_inv a b : (bpow a < bpow b)%R -> a < b.
Proof.
  intros H. destruct (Z_lt_le_dec a b) as [|Hle]; [assumption|exfalso].
  pose proof (bpow_le b a Hle). lra.
Qed.

Lemma Rounds_value v f :
  Rounds v f -> (bpow (-1021) <= v < bpow 1023)%R ->
  exists m e,
    f = S754_finite false m e /\
    (v / 2 <= F2R m e <= 2 * v)%R /\
    2 ^ 52 <= Zpos m.
Proof.
  intros (e1 & m2 & He1 & Hm2 & Hup & Hlow & Hnear & ->) [Hv1 Hv2].
  pose proof (Rounds_mantissa _ _ _ Hup Hnear) as Hmax.
  pose proof (bpow_pos e1) as Hb.
  assert (He1' : -1074 < e1).
  { assert (H : -1021 < e1 + 53) by (apply bpow_lt_inv; lra). lia. }
  specialize (Hlow He1').
  assert (He1'' : e1 + 52 < 1023) by (apply bpow_lt_inv; lra).
  apply Rabs_le_inv in Hnear. rewrite bpow_52 in Hlow.
  assert (Hmin : 4503599627370496 <= m2).
  { apply IZR_lt_succ. apply (Rmult_lt_reg_r (bpow e1)); [exact Hb|]. nra. }
  unfold finalize. destruct m2 as [|p|p]; [lia| |lia].
  destruct (Z.eqb_spec (Zpos p) 9007199254740992) as [Hp|Hp].
  - destruct (Z.leb_spec (e1 + 1) 971); [|lia].
    do 2 eexists. split; [reflexivity|]. split; [|cbn; lia].
    unfold F2R. rewrite bpow_add, bpow_1. rewrite Hp in Hnear. nra.
  - destruct (Z.leb_spec e1 971); [|lia].
    do 2 eexists. split; [reflexivity|]. split; [|change (2 ^ 52) with 4503599627370496; lia].
    unfold F2R. nra.
Qed.

Lemma iter_xO p d : Zpos (Pos.iter xO p d) = Zpos p * 2 ^ Zpos d.
Proof.
  induction d as [|d IH] using Pos.peano_ind.
  - cbn [Pos.iter]. lia.
  - rewrite Pos.iter_succ, Pos2Z.inj_xO, IH, Pos2Z.inj_succ, Z.pow_succ_r by lia. lia.
Qed.

Lemma located_exact m : 0 <= m -> located (IZR m) (shr_record_of_loc m loc_Exact).
Proof. intros H. unfold located. cbn. split; [exact H|reflexivity]. Qed.

Lemma fexp_mono x y : x <= y -> fexp 53 1024 x <= fexp 53 1024 y.
Proof. intros H. rewrite !fexp_eq. lia. Qed.

Lemma binary_round_rounds p e :
  Rounds (F2R p e) (binary_round 53 1024 false p e).
Proof.
  unfold binary_round, shl_align.
  set (e' := fexp 53 1024 (Zpos (digits2_pos p) + e)).
  destruct (e' - e) as [|d|d] eqn:Ed.
  - unfold F2R. apply round_aux_rounds; [apply located_exact; lia|].
    change (Zdigits2 (Zpos p)) with (Zpos (digits2_pos p)). fold e'. lia.
  - unfold F2R. apply round_aux_rounds; [apply located_exact; lia|].
    change (Zdigits2 (Zpos p)) with (Zpos (digits2_pos p)). fold e'. lia.
  - assert (Hval : F2R p e = (IZR (Zpos (Pos.iter xO p d)) * bpow e')%R).
    { unfold F2R. rewrite iter_xO, mult_IZR, <- (bpow_IZR (Zpos d)) by lia.
      rewrite Rmult_assoc, <- bpow_add. f_equal. f_equal. lia. }
    rewrite Hval. apply round_aux_rounds; [apply located_exact; lia|].
    unfold e' at 1. apply fexp_mono.
    pose proof (digits2_pos_bounds p) as Hb.
    assert (Hge : 2 ^ (Zpos (digits2_pos p) - 1 + Zpos d) <= Zpos (Pos.iter xO p d)).
    { rewrite iter_xO, Z.pow_add_r by lia.
      pose proof (Z.pow_pos_nonneg 2 (Zpos d) ltac:(lia) ltac:(lia)). nia. }
    pose proof (Zdigits2_ge _ _ Hge ltac:(lia)). lia.
Qed.

Lemma SFmul_rounds mx ex my ey :
  2 ^ 52 <= Zpos mx -> 2 ^ 52 <= Zpos my ->
  Rounds (F2R mx ex * F2R my ey)
         (SFmul 53 1024 (S754_finite false mx ex) (S754_finite false my ey)).
Proof.
  intros Hx Hy. cbn [SFmul xorb].
  assert (Hval : (F2R mx ex * F2R my ey = IZR (Zpos (mx * my)) * bpow (ex + ey))%R).
  { unfold F2R. rewrite Pos2Z.inj_mul, mult_IZR, bpow_add. ring. }
  rewrite Hval. apply round_aux_rounds; [apply located_exact; lia|].
  rewrite fexp_eq.
  assert (Hge : 2 ^ 104 <= Zpos (mx * my)).
  { rewrite Pos2Z.inj_mul. change (2 ^ 104) with (2 ^ 52 * 2 ^ 52). nia. }
  pose proof (Zdigits2_ge _ _ Hge ltac:(lia)). lia.
Qed.

Lemma Rounds_class v f : Rounds v f -> nonneg_class f.
Proof.
  intros (e1 & m2 & _ & Hm2 & _ & _ & _ & ->). apply finalize_class, Hm2.
Qed.

Lemma Rounds_leb_zero v f : Rounds v f -> SFleb (S754_zero false) f = true.
Proof.
  intros (e1 & m2 & _ & Hm2 & _ & _ & _ & ->). now apply SFleb_zero_finalize.
Qed.

Lemma Rounds_leb_inf v f : Rounds v f -> SFleb f (S754_infinity false) = true.
Proof.
  intros (e1 & m2 & _ & Hm2 & _ & _ & _ & ->). now apply SFleb_finalize_inf.
Qed.

Lemma Rounds_leb_refl v f : Rounds v f -> SFleb f f = true.
Proof.
  intros (e1 & m2 & _ & Hm2 & _ & _ & _ & ->). now apply SFleb_finalize_refl.
Qed.

Lemma SFdiv_antitone mx ex T1 T2 :
  valid_binary T1 = true -> valid_binary T2 = true ->
  SFltb (S754_zero false) T1 = true -> SFltb T1 T2 = true ->
  SFleb (SFdiv 53 1024 (S754_finite false mx ex) T2)
        (SFdiv 53 1024 (S754_finite false mx ex) T1) = true /\
  nonneg_class (SFdiv 53 1024 (S754_finite false mx ex) T2) /\
  nonneg_class (SFdiv 53 1024 (S754_finite false mx ex) T1).
Proof.
  intros V1 V2 H01 H12.
  destruct T1 as [s1|s1| |s1 m1 e1]; try discriminate H01;
    [destruct s1; [discriminate H01|]; destruct T2 as [?|[]| |[] ? ?]; discriminate H12|].
  destruct s1; [discriminate H01|].
  pose proof (SFdiv_rounds mx ex m1 e1) as R1.
  destruct T2 as [s2|s2| |s2 m2 e2]; try discriminate H12.
  - destruct s2; [discriminate H12|]. cbn [SFdiv xorb].
    split; [eapply Rounds_leb_zero; exact R1|].
    split; [now left|eapply Rounds_class; exact R1].
  - destruct s2; [discriminate H12|].
    pose proof (SFdiv_rounds mx ex m2 e2) as R2.
    split; [|split; eapply Rounds_class; eassumption].
    eapply Rounds_mono; [exact R2|exact R1|].
    pose proof (SFltb_F2R _ _ _ _ V1 V2 H12) as Hlt.
    pose proof (F2R_pos mx ex). pose proof (F2R_pos m1 e1). pose proof (F2R_pos m2 e2).
    unfold Rdiv. apply Rmult_lt_compat_l; [assumption|].
    apply Rinv_lt_contravar; [apply Rmult_lt_0_compat; assumption|assumption].
Qed.

Lemma SFdiv_monotone A B mc ec :
  valid_binary A = true -> valid_binary B = true ->
  nonneg_class A -> SFleb A B = true ->
  SFleb (SFdiv 53 1024 A (S754_finite false mc ec))
        (SFdiv 53 1024 B (S754_finite false mc ec)) = true.
Proof.
  intros VA VB HA HAB.
  destruct HA as [->|[->|(ma & ea & ->)]].
  - destruct B as [sb|sb| |sb mb eb]; try discriminate HAB.
    + destruct sb; reflexivity.
    + destruct sb; [discriminate HAB|]. reflexivity.
    + destruct sb; [discriminate HAB|]. cbn [SFdiv xorb].
      eapply Rounds_leb_zero. apply (SFdiv_rounds mb eb mc ec).
  - destruct B as [sb|sb| |sb mb eb]; try discriminate HAB.
    destruct sb; [discriminate HAB|]. reflexivity.
  - pose proof (SFdiv_rounds ma ea mc ec) as RA.
    destruct B as [sb|sb| |sb mb eb]; try discriminate HAB.
    + destruct sb; [discriminate HAB|]. cbn [SFdiv xorb] in *.
      eapply Rounds_leb_inf. exact RA.
    + destruct sb; [discriminate HAB|].
      pose proof (SFdiv_rounds mb eb mc ec) as RB.
      unfold SFleb in HAB.
      destruct (SFcompare (S754_finite false ma ea) (S754_finite false mb eb))
        as [[| |]|] eqn:Hc; try discriminate HAB.
      * apply SFcompare_Eq_finite in Hc. destruct Hc as [-> ->].
        eapply Rounds_leb_refl. exact RA.
      * assert (Hlt : SFltb (S754_finite false ma ea) (S754_finite false mb eb) = true)
          by (unfold SFltb; now rewrite Hc).
        pose proof (SFltb_F2R _ _ _ _ VA VB Hlt).
        eapply Rounds_mono; [exact RA|exact RB|].
        pose proof (F2R_pos mc ec).
        unfold Rdiv. apply Rmult_lt_compat_r; [now apply Rinv_0_lt_compat|assumption].
Qed.

Lemma bpow_opp k : bpow (- k) = (/ bpow k)%R.
Proof.
  pose proof (bpow_pos k). apply (Rmult_eq_reg_r (bpow k)); [|lra].
  rewrite <- bpow_add, Rinv_l by lra. replace (- k + k) with 0 by lia. apply bpow_0.
Qed.

Lemma bpow_m1 : bpow (-1) = (1 / 2)%R.
Proof. change (-1) with (- (1)). rewrite bpow_opp, bpow_1. lra. Qed.

Lemma to_double_finite n :
  0 < n <= CInt.INT_MAX ->
  exists m e,
    Prim2SF (CInt.to_double n) = S754_finite false m e /\
    (bpow (-1) <= F2R m e <= bpow 32)%R /\
    2 ^ 52 <= Zpos m.
Proof.
  intros Hn. unfold CInt.INT_MAX in Hn. unfold CInt.to_double.
  destruct (Z.ltb_spec n 0) as [|_]; [lia|].
  rewrite of_uint63_spec, Uint63.of_Z_spec.
  rewrite Z.mod_small by (change Uint63Axioms.wB with 9223372036854775808; lia).
  destruct n as [|p|p]; try lia. cbn [binary_normalize].
  pose proof (binary_round_rounds p 0) as HR.
  assert (Hval : F2R p 0 = IZR (Zpos p)) by (unfold F2R; rewrite bpow_0; ring).
  assert (H1 : (1 <= IZR (Zpos p))%R) by (apply IZR_le; lia).
  assert (H2 : (IZR (Zpos p) <= bpow 31)%R)
    by (rewrite bpow_IZR by lia; apply IZR_le; change (2 ^ 31) with 2147483648; lia).
  pose proof (bpow_le (-1021) 0 ltac:(lia)) as B1. rewrite bpow_0 in B1.
  pose proof (bpow_lt 31 1023 ltac:(lia)) as B2.
  destruct (Rounds_value _ _ HR) as (m & e & Hf & Hv & Hm); [rewrite Hval; lra|].
  exists m, e. split; [exact Hf|]. split; [|exact Hm].
  rewrite Hval in Hv.
  rewrite bpow_m1.
  replace 32 with (1 + 31) by lia. rewrite bpow_add, bpow_1. lra.
Qed.

Lemma bandwidth_numerator_finite msg_size nmessages :
  0 < msg_size <= CInt.INT_MAX ->
  0 < nmessages <= CInt.INT_MAX ->
  exists m e,
    Prim2SF (PrimFloat.div
               (PrimFloat.mul (CInt.to_double msg_size) (CInt.to_double nmessages))
               (CInt.to_double (1024 * 1024))) = S754_finite false m e.
Proof.
  intros Hs Hn.
  destruct (to_double_finite nmessages Hn) as (mn & en & Hfn & Hvn & Hmn).
  destruct (to_double_finite msg_size Hs) as (ms & es & Hfs & Hvs & Hms).
  rewrite div_spec, mul_spec, Hfs, Hfn.
  change (Prim2SF (CInt.to_double (1024 * 1024)))
    with (S754_finite false 4503599627370496 (-32)).
  pose proof (SFmul_rounds ms es mn en Hms Hmn) as HRp.
  pose proof (bpow_pos (-1)) as P1.
  assert (Hb1 : bpow (-2) = (bpow (-1) * bpow (-1))%R) by (rewrite <- bpow_add; reflexivity).
  assert (Hb2 : bpow 64 = (bpow 32 * bpow 32)%R) by (rewrite <- bpow_add; reflexivity).
  pose proof (bpow_le (-1021) (-2) ltac:(lia)) as B1.
  pose proof (bpow_lt 64 1023 ltac:(lia)) as B2.
  destruct (Rounds_value _ _ HRp) as (mp & ep & Hfp & Hvp & _); [nra|].
  unfold SF64div, SF64mul, prec, emax. rewrite Hfp.
  pose proof (SFdiv_rounds mp ep 4503599627370496 (-32)) as HRx.
  assert (Hc : F2R 4503599627370496 (-32) = bpow 20).
  { unfold F2R. change (IZR (Zpos 4503599627370496)) with (IZR (2 ^ 52)).
    rewrite <- (bpow_IZR 52), <- bpow_add by lia. reflexivity. }
  rewrite Hc in HRx.
  assert (Hx : (bpow (-23) <= F2R mp ep / bpow 20 <= bpow 45)%R).
  { assert (Hinv : (/ bpow 20)%R = bpow (-20))
      by (rewrite <- (bpow_opp 20); reflexivity).
    unfold Rdiv. rewrite Hinv.
    replace (-23) with (-3 + -20) by lia. replace 45 with (65 + -20) by lia.
    rewrite !bpow_add. pose proof (bpow_pos (-20)).
    assert (bpow (-3) = bpow (-2) / 2)%R
      by (replace (-3) with (-2 + -1) by lia; rewrite bpow_add, bpow_m1; lra).
    assert (bpow 65 = 2 * bpow 64)%R
      by (replace 65 with (1 + 64) by lia; rewrite bpow_add, bpow_1; lra).
    split; apply Rmult_le_compat_r; nra. }
  pose proof (bpow_le (-1021) (-23) ltac:(lia)) as B3.
  pose proof (bpow_lt 45 1023 ltac:(lia)) as B4.
  destruct (Rounds_value _ _ HRx) as (mx & ex & Hfx & _ & _); [lra|].
  exists mx, ex. exact Hfx.
Qed.

Lemma SFdiv_positive_class mx ex T :
  SFltb (S754_zero false) T = true ->
  nonneg_class (SFdiv 53 1024 (S754_finite false mx ex) T).
Proof.
  intros H. destruct T as [s|s| |s m e]; try discriminate H;
    destruct s; try discriminate H.
  - left. reflexivity.
  - eapply Rounds_class. apply SFdiv_rounds.
Qed.

Lemma SFdiv_class_by_finite A mc ec :
  nonneg_class A -> nonneg_class (SFdiv 53 1024 A (S754_finite false mc ec)).
Proof.
  intros [->|[->|(m & e & ->)]].
  - left. reflexivity.
  - right. left. reflexivity.
  - eapply Rounds_class. apply SFdiv_rounds.
Qed.

Lemma SFleb_zero_class A : nonneg_class A -> SFleb (S754_zero false) A = true.
Proof. intros [->|[->|(m & e & ->)]]; reflexivity. Qed.

(** C8, as the code has it. For a message size and a message count that
    are positive [int] values and two positive elapsed times [t1 < t2] (as
    doubles), the rate and the bandwidth the report computes for [t2] are
    not larger than those it computes for [t1]: with the rounding of every
    conversion, product and division taken into account, both are
    non-increasing in the elapsed time. *)
Theorem computed_rate_never_increases (msg_size nmessages : Z) (t1 t2 : float) :
  0 < msg_size <= CInt.INT_MAX ->
  0 < nmessages <= CInt.INT_MAX ->
  PrimFloat.ltb 0%float t1 = true ->
  PrimFloat.ltb t1 t2 = true ->
  PrimFloat.leb (my_msg_rate nmessages t2) (my_msg_rate nmessages t1) = true /\
  PrimFloat.leb (my_bandwidth msg_size nmessages t2)
                (my_bandwidth msg_size nmessages t1) = true.
Proof.
  intros Hs Hn H01 H12.
  rewrite ltb_spec in H01, H12. change (Prim2SF 0%float) with (S754_zero false) in H01.
  pose proof (Prim2SF_valid t1) as V1. pose proof (Prim2SF_valid t2) as V2.
  split.
  - destruct (to_double_finite nmessages Hn) as (mn & en & Hfn & _ & _).
    unfold my_msg_rate. rewrite leb_spec, !(div_spec _ 1e6%float).
    change (Prim2SF 1e6%float) with (S754_finite false 8589934592000000 (-33)).
    destruct (SFdiv_antitone mn en _ _ V1 V2 H01 H12) as (Hle & Hc2 & _).
    apply SFdiv_monotone; try apply Prim2SF_valid;
      rewrite !div_spec, Hfn; assumption.
  - destruct (bandwidth_numerator_finite msg_size nmessages Hs Hn) as (mx & ex & Hfx).
    unfold my_bandwidth. rewrite leb_spec, (div_spec _ t1), (div_spec _ t2), Hfx.
    destruct (SFdiv_antitone mx ex _ _ V1 V2 H01 H12) as (Hle & _ & _). exact Hle.
Qed.

Lemma computed_rate_never_increases_witness :
  0 < 8 <= CInt.INT_MAX /\ 0 < 640000 <= CInt.INT_MAX /\
  PrimFloat.ltb 0%float 1.1875%float = true /\
  PrimFloat.ltb 1.1875%float 2.5%float = true /\
  PrimFloat.leb (my_msg_rate 640000 2.5%float) (my_msg_rate 640000 1.1875%float) = true /\
  PrimFloat.leb (my_bandwidth 8 640000 2.5%float)
                (my_bandwidth 8 640000 1.1875%float) = true.
Proof.
  assert (H1 : 0 < 8 <= CInt.INT_MAX) by (unfold CInt.INT_MAX; lia).
  assert (H2 : 0 < 640000 <= CInt.INT_MAX) by (unfold CInt.INT_MAX; lia).
  assert (H3 : PrimFloat.ltb 0%float 1.1875%float = true) by reflexivity.
  assert (H4 : PrimFloat.ltb 1.1875%float 2.5%float = true) by reflexivity.
  pose proof (computed_rate_never_increases 8 640000 1.1875%float 2.5%float H1 H2 H3 H4)
    as (Hr & Hb).
  split; [exact H1|]. split; [exact H2|]. split; [exact H3|]. split; [exact H4|].
  split; assumption.
Defined.

(** X15. For a positive message size and count and a positive elapsed
    time (finite or not), the rate and the bandwidth of the report are
    numbers at least zero: the divisions produce neither a NaN nor a
    negative value. *)
Theorem computed_rate_is_a_nonnegative_number (msg_size nmessages : Z) (t : float) :
  0 < msg_size <= CInt.INT_MAX ->
  0 < nmessages <= CInt.INT_MAX ->
  PrimFloat.ltb 0%float t = true ->
  PrimFloat.leb 0%float (my_msg_rate nmessages t) = true /\
  PrimFloat.leb 0%float (my_bandwidth msg_size nmessages t) = true.
Proof.
  intros Hs Hn H0t.
  rewrite ltb_spec in H0t. rewrite !leb_spec.
  change (Prim2SF 0%float) with (S754_zero false) in *.
  split; apply SFleb_zero_class.
  - destruct (to_double_finite nmessages Hn) as (mn & en & Hfn & _ & _).
    unfold my_msg_rate. rewrite !div_spec, Hfn.
    change (Prim2SF 1e6%float) with (S754_finite false 8589934592000000 (-33)).
    apply SFdiv_class_by_finite, SFdiv_positive_class, H0t.
  - destruct (bandwidth_numerator_finite msg_size nmessages Hs Hn) as (mx & ex & Hfx).
    unfold my_bandwidth. rewrite (div_spec _ t), Hfx.
    apply SFdiv_positive_class, H0t.
Qed.

Lemma computed_rate_is_a_nonnegative_number_witness :
  0 < 8 <= CInt.INT_MAX /\ 0 < 640000 <= CInt.INT_MAX /\
  PrimFloat.ltb 0%float 1.1875%float = true /\
  PrimFloat.leb 0%float (my_msg_rate 640000 1.1875%float) = true.
Proof.
  assert (H1 : 0 < 8 <= CInt.INT_MAX) by (unfold CInt.INT_MAX; lia).
  assert (H2 : 0 < 640000 <= CInt.INT_MAX) by (unfold CInt.INT_MAX; lia).
  assert (H3 : PrimFloat.ltb 0%float 1.1875%float = true) by reflexivity.
  pose proof (computed_rate_is_a_nonnegative_number 8 640000 1.1875%float H1 H2 H3)
    as (Hr & _).
  split; [exact H1|]. split; [exact H2|]. split; [exact H3|exact Hr].
Defined.

(** X16. A zero elapsed time does not stop the report: for a positive
    message size and count the rate and the bandwidth are plus infinity;
    for the message count 0 (what the normalisation leaves of fewer than
    64 messages per thread) the rate is a NaN. *)
Theorem zero_elapsed_time_gives_infinity (msg_size nmessages : Z) :
  0 < msg_size <= CInt.INT_MAX ->
  0 < nmessages <= CInt.INT_MAX ->
  my_msg_rate nmessages 0%float = PrimFloat.infinity /\
  my_bandwidth msg_size nmessages 0%float = PrimFloat.infinity /\
  PrimFloat.is_nan (my_msg_rate 0 0%float) = true.
Proof.
  intros Hs Hn. split; [|split; [|reflexivity]]; apply Prim2SF_inj.
  - destruct (to_double_finite nmessages Hn) as (mn & en & Hfn & _ & _).
    unfold my_msg_rate. rewrite !div_spec, Hfn. reflexivity.
  - destruct (bandwidth_numerator_finite msg_size nmessages Hs Hn) as (mx & ex & Hfx).
    unfold my_bandwidth. rewrite (div_spec _ 0%float), Hfx. reflexivity.
Qed.

Lemma zero_elapsed_time_gives_infinity_witness :
  0 < 8 <= CInt.INT_MAX /\ 0 < 640000 <= CInt.INT_MAX /\
  my_msg_rate 640000 0%float = PrimFloat.infinity /\
  my_bandwidth 8 640000 0%float = PrimFloat.infinity.
Proof.
  assert (H1 : 0 < 8 <= CInt.INT_MAX) by (unfold CInt.INT_MAX; lia).
  assert (H2 : 0 < 640000 <= CInt.INT_MAX) by (unfold CInt.INT_MAX; lia).
  pose proof (zero_elapsed_time_gives_infinity 8 640000 H1 H2) as (Hr & Hb & _).
  split; [exact H1|]. split; [exact H2|]. split; assumption.
Defined.
